(** * Secure client channel creation (chttp2, client side)

    A shallow embedding of
    [src/core/ext/transport/chttp2/client/secure/secure_channel_create.c]:
    the reference-counted channel factory ([client_channel_factory]) and the
    entry point [grpc_secure_channel_create].

    The C code is a straight line of calls that allocate, retain and release
    heap objects.  It is embedded as a state-and-error monad over an explicit
    heap of reference-counted cells, together with a log of the calls made
    into the rest of the library. *)

From Stdlib Require Import ZArith List String Lia.
From stdpp Require Import base option list strings gmap.

Local Open Scope string_scope.
Local Open Scope list_scope.

(** ** Data *)

(** [grpc_status_code]; only [GRPC_STATUS_INTERNAL] is used by this file. *)
Inductive grpc_status_code :=
| GRPC_STATUS_OK
| GRPC_STATUS_UNKNOWN
| GRPC_STATUS_INTERNAL
| GRPC_STATUS_UNAVAILABLE.

(** [grpc_client_channel_type]. *)
Inductive grpc_client_channel_type :=
| GRPC_CLIENT_CHANNEL_TYPE_REGULAR
| GRPC_CLIENT_CHANNEL_TYPE_LOAD_BALANCING.

(** A [grpc_arg]: a key and a string, integer or pointer value.  Pointer
    values are addresses of heap objects. *)
Inductive grpc_arg_value :=
| ArgString (s : string)
| ArgInteger (i : Z)
| ArgPointer (p : nat).

Record grpc_arg := Arg { key : string; value : grpc_arg_value }.

(** [grpc_channel_args]: the ordered array of entries.  A NULL
    [grpc_channel_args *] is identified with the empty array: every helper
    used here treats the two alike. *)
Definition grpc_channel_args := list grpc_arg.

(** [grpc_subchannel_args]: the fields this file reads ([server_name]) and
    the channel args carried along. *)
Record grpc_subchannel_args :=
  SubchannelArgs { server_name : string; subchannel_channel_args : grpc_channel_args }.

(** The handshaker callback stored in a transport connector.  This file has
    one: [add_handshakers]. *)
Inductive handshaker_installer := Add_handshakers.

(** Heap objects, at addresses of type [nat].  Credentials
    ([grpc_channel_credentials *]) are opaque to this file: a handle, also a
    [nat].  [OFactory] is the [client_channel_factory] struct of this
    file (its vtable is the constant [client_channel_factory_vtable]); the
    others are the objects of the collaborators, reduced to what they are
    built from and the references they hold. *)
Inductive object :=
| OSecurityConnector (creds : nat) (target : string)
| OArgs (args : grpc_channel_args)
| OFactory (security_connector : nat)
| OResolver (target : string)
| OChannel (target : string) (args : grpc_channel_args)
           (binding : option (nat * nat))
| OLameChannel (target : string) (status : grpc_status_code) (msg : string)
| OConnector (server_name : string) (installer : handshaker_installer)
             (user_data : nat)
| OSubchannel (connector : option nat) (args : grpc_subchannel_args).

(** A heap cell: the object and its reference count ([gpr_refcount]). *)
Record cell := Cell { refs : nat; obj : object }.

(** Calls into the rest of the library, in the order they are made. *)
Inductive event :=
| EvApiTrace (fn : string)
| EvLog (msg : string)
| EvLameChannelCreate (target : string) (status : grpc_status_code) (msg : string)
| EvCreateSecurityConnector (creds : nat) (target : string)
                            (result : option (nat * option nat))
| EvArgsCopyAndAdd (src : grpc_channel_args) (added : list grpc_arg) (dst : nat)
| EvArgsDestroy (a : nat)
| EvSecurityConnectorRef (sc : nat) (reason : string)
| EvSecurityConnectorUnref (sc : nat) (reason : string)
| EvChannelCreate (target : string) (args : grpc_channel_args) (ch : nat)
| EvResolverCreate (target : string) (args : grpc_channel_args) (ok : bool)
| EvChannelInternalUnref (ch : nat) (reason : string)
| EvFinishInitialization (ch resolver factory : nat)
| EvResolverUnref (r : nat) (reason : string)
| EvConnectorCreate (server_name : string) (user_data : nat) (c : nat)
| EvSubchannelCreate (connector : nat) (sub : nat)
| EvConnectorUnref (c : nat)
| EvAddHandshakers (security_connector handshake_mgr : nat).

(** The program state: the heap, the next address [gpr_malloc] hands out,
    and the call log. *)
Record state := State {
  heap : gmap nat cell;
  next : nat;
  trace : list event
}.

(** ** The monad *)

(** A call returns ([Done]), dies on a failed [GPR_ASSERT] ([Abort]), or
    touches an object that is not live ([Fault]: a use after free, a double
    free or a type confusion - undefined behaviour in C). *)
Inductive outcome (A : Type) :=
| Done (a : A) (s : state)
| Abort (s : state)
| Fault (s : state).

Arguments Done {A} a s.
Arguments Abort {A} s.
Arguments Fault {A} s.

Definition M (A : Type) := state -> outcome A.

Definition ret {A} (a : A) : M A := fun s => Done a s.

Definition bind {A B} (m : M A) (k : A -> M B) : M B :=
  fun s => match m s with
           | Done a s' => k a s'
           | Abort s' => Abort s'
           | Fault s' => Fault s'
           end.

Definition abort {A} : M A := fun s => Abort s.
Definition fault {A} : M A := fun s => Fault s.

Declare Scope m_scope.
Delimit Scope m_scope with M.
Notation "x <- m ;; k" := (bind m (fun x => k))
  (at level 100, m at next level, right associativity) : m_scope.
Notation "m ;; k" := (bind m (fun _ => k))
  (at level 100, right associativity) : m_scope.
Local Open Scope m_scope.

(** [GPR_ASSERT]. *)
Definition GPR_ASSERT (b : bool) : M unit := if b then ret tt else abort.

Definition emit (e : event) : M unit :=
  fun s => Done tt (State (heap s) (next s) (trace s ++ [e])).

(** [gpr_malloc] followed by the initialisation of the object, with
    reference count [1] ([gpr_ref_init (&refs, 1)]). *)
Definition alloc (o : object) : M nat :=
  fun s => Done (next s)
                (State (<[next s := Cell 1 o]> (heap s)) (S (next s)) (trace s)).

Definition load (a : nat) : M cell :=
  fun s => match heap s !! a with
           | Some c => Done c s
           | None => Fault s
           end.

Definition store (a : nat) (c : cell) : M unit :=
  fun s => Done tt (State (<[a := c]> (heap s)) (next s) (trace s)).

(** [gpr_free]. *)
Definition gpr_free (a : nat) : M unit :=
  fun s => match heap s !! a with
           | Some _ => Done tt (State (delete a (heap s)) (next s) (trace s))
           | None => Fault s
           end.

(** [gpr_ref]: increment the count of a live object. *)
Definition gpr_ref (a : nat) : M unit :=
  c <- load a ;;
  match refs c with
  | O => fault
  | S _ => store a (Cell (S (refs c)) (obj c))
  end.

(** [gpr_unref]: decrement the count; true when it reached zero. *)
Definition gpr_unref (a : nat) : M bool :=
  c <- load a ;;
  match refs c with
  | O => fault
  | S n => store a (Cell n (obj c)) ;; ret (Nat.eqb n 0)
  end.

(** Drop one reference and destroy the object when it was the last: the
    shape of every [..._UNREF] of the library. *)
Definition unref_and_destroy (a : nat) : M unit :=
  z <- gpr_unref a ;;
  if z then gpr_free a else ret tt.

Section SecureChannelCreate.

(** ** What this file takes from the rest of the library *)

(** The key of the security connector entry, [GRPC_SECURITY_CONNECTOR_ARG]
    (a macro of [security_connector.h]). *)
Variable GRPC_SECURITY_CONNECTOR_ARG : string.

(** The decision of [grpc_channel_credentials_create_security_connector]:
    [None] when the credentials cannot secure the target (a status other
    than [GRPC_SECURITY_OK]), [Some d] when they can, [d] being the derived
    channel args the connector hands back ([None] for a NULL
    [new_args_from_connector]). *)
Variable security_policy :
  nat -> string -> grpc_channel_args -> option (option grpc_channel_args).

(** Whether the resolver registry has a resolver for the target. *)
Variable resolver_registry : string -> grpc_channel_args -> bool.

(** Whether the subchannel handed back by [grpc_subchannel_create] keeps the
    connector it was given. *)
Variable subchannel_retains : grpc_subchannel_args -> bool.

(** Modelled from the spec: [grpc_security_connector_from_arg], absent from
    the sources; a security-state entry is a pointer entry under the security
    connector key. *)
Definition grpc_security_connector_from_arg (a : grpc_arg) : option nat :=
  if String.eqb (key a) GRPC_SECURITY_CONNECTOR_ARG
  then match value a with
       | ArgPointer p => Some p
       | _ => None
       end
  else None.

(** Modelled from the spec: [grpc_find_security_connector_in_args], absent
    from the sources; the first security-state entry of the args, if any. *)
Fixpoint grpc_find_security_connector_in_args (args : grpc_channel_args)
  : option nat :=
  match args with
  | [] => None
  | a :: rest =>
      match grpc_security_connector_from_arg a with
      | Some sc => Some sc
      | None => grpc_find_security_connector_in_args rest
      end
  end.

(** Modelled from the spec: [grpc_security_connector_to_arg], absent from the
    sources; the back-reference entry pointing at the security connector. *)
Definition grpc_security_connector_to_arg (sc : nat) : grpc_arg :=
  Arg GRPC_SECURITY_CONNECTOR_ARG (ArgPointer sc).

(** Modelled from the spec: [grpc_lame_client_channel_create], absent from the
    sources; always succeeds and yields a channel that carries only the
    status and the message. *)
Definition grpc_lame_client_channel_create
    (target : string) (status : grpc_status_code) (msg : string) : M nat :=
  emit (EvLameChannelCreate target status msg) ;;
  alloc (OLameChannel target status msg).

(** Modelled from the spec:
    [grpc_channel_credentials_create_security_connector], absent from the
    sources; on success a connector with reference count 1 and, optionally,
    a freshly allocated fragment of derived args; on failure nothing is
    allocated. *)
Definition grpc_channel_credentials_create_security_connector
    (creds : nat) (target : string) (args : grpc_channel_args)
  : M (option (nat * option nat)) :=
  match security_policy creds target args with
  | None =>
      emit (EvCreateSecurityConnector creds target None) ;;
      ret None
  | Some derived =>
      sc <- alloc (OSecurityConnector creds target) ;;
      new_args <- match derived with
                  | None => ret None
                  | Some d => da <- alloc (OArgs d) ;; ret (Some da)
                  end ;;
      emit (EvCreateSecurityConnector creds target (Some (sc, new_args))) ;;
      ret (Some (sc, new_args))
  end.

(** Reading the entries behind a [grpc_channel_args *]. *)
Definition load_args (a : nat) : M grpc_channel_args :=
  c <- load a ;;
  match obj c with
  | OArgs l => ret l
  | _ => fault
  end.

(** Modelled from the spec: [grpc_channel_args_copy_and_add], absent from the
    sources; a fresh array holding the source entries in order, followed by
    the added ones. *)
Definition grpc_channel_args_copy_and_add
    (src : grpc_channel_args) (to_add : list grpc_arg) : M nat :=
  dst <- alloc (OArgs (src ++ to_add)) ;;
  emit (EvArgsCopyAndAdd src to_add dst) ;;
  ret dst.

(** Modelled from the spec: [grpc_channel_args_destroy], absent from the
    sources; frees the array. *)
Definition grpc_channel_args_destroy (a : nat) : M unit :=
  emit (EvArgsDestroy a) ;;
  load_args a ;;
  gpr_free a.

(** Modelled from the spec: [GRPC_SECURITY_CONNECTOR_REF] and
    [GRPC_SECURITY_CONNECTOR_UNREF], macros of [security_connector.h]; the
    connector is destroyed when its last reference is dropped. *)
Definition GRPC_SECURITY_CONNECTOR_REF (sc : nat) (reason : string) : M unit :=
  emit (EvSecurityConnectorRef sc reason) ;;
  gpr_ref sc.

Definition GRPC_SECURITY_CONNECTOR_UNREF (sc : nat) (reason : string) : M unit :=
  emit (EvSecurityConnectorUnref sc reason) ;;
  unref_and_destroy sc.

(** Modelled from the spec: [grpc_channel_create], absent from the sources;
    builds the channel object around its own copy of the args. *)
Definition grpc_channel_create (target : string) (args : nat) : M nat :=
  l <- load_args args ;;
  ch <- alloc (OChannel target l None) ;;
  emit (EvChannelCreate target l ch) ;;
  ret ch.

(** Modelled from the spec: [grpc_resolver_create], absent from the sources;
    NULL when no resolver can be made for the target. *)
Definition grpc_resolver_create (target : string) (args : nat)
  : M (option nat) :=
  l <- load_args args ;;
  if resolver_registry target l
  then emit (EvResolverCreate target l true) ;;
       r <- alloc (OResolver target) ;;
       ret (Some r)
  else emit (EvResolverCreate target l false) ;;
       ret None.

(** Modelled from the spec: [GRPC_CHANNEL_INTERNAL_UNREF] and
    [GRPC_RESOLVER_UNREF], macros of the channel and resolver headers. *)
Definition GRPC_CHANNEL_INTERNAL_UNREF (ch : nat) (reason : string) : M unit :=
  emit (EvChannelInternalUnref ch reason) ;;
  unref_and_destroy ch.

Definition GRPC_RESOLVER_UNREF (r : nat) (reason : string) : M unit :=
  emit (EvResolverUnref r reason) ;;
  unref_and_destroy r.

(** ** The channel factory of this file *)

(** [client_channel_factory_ref]. *)
Definition client_channel_factory_ref (cc_factory : nat) : M unit :=
  gpr_ref cc_factory.

(** [client_channel_factory_unref]. *)
Definition client_channel_factory_unref (cc_factory : nat) : M unit :=
  f <- load cc_factory ;;
  match obj f with
  | OFactory security_connector =>
      z <- gpr_unref cc_factory ;;
      if z then
        GRPC_SECURITY_CONNECTOR_UNREF security_connector
                                      "client_channel_factory" ;;
        gpr_free cc_factory
      else ret tt
  | _ => fault
  end.

(** Modelled from the spec: [grpc_client_channel_finish_initialization],
    absent from the sources; wires the resolver and the factory into the
    channel stack, which retains a reference to each (the factory's through
    the [ref] slot of its vtable, [client_channel_factory_ref]). *)
Definition grpc_client_channel_finish_initialization
    (ch resolver factory : nat) : M unit :=
  emit (EvFinishInitialization ch resolver factory) ;;
  c <- load ch ;;
  match obj c with
  | OChannel target args None =>
      store ch (Cell (refs c) (OChannel target args (Some (resolver, factory)))) ;;
      gpr_ref resolver ;;
      client_channel_factory_ref factory
  | _ => fault
  end.

(** Modelled from the spec:
    [grpc_channel_security_connector_add_handshakers], absent from the
    sources; puts the handshake step of the security connector on the
    handshake manager. *)
Definition grpc_channel_security_connector_add_handshakers
    (security_connector handshake_mgr : nat) : M unit :=
  emit (EvAddHandshakers security_connector handshake_mgr).

(** [add_handshakers]: the callback a transport connector runs, later, on
    the argument it was created with. *)
Definition add_handshakers (security_connector handshake_mgr : nat) : M unit :=
  grpc_channel_security_connector_add_handshakers security_connector
                                                  handshake_mgr.

Definition run_installer (i : handshaker_installer) : nat -> nat -> M unit :=
  match i with
  | Add_handshakers => add_handshakers
  end.

(** Modelled from the spec: [grpc_chttp2_connector_create], absent from the
    sources; a pure constructor that stores the server name, the handshaker
    callback and its argument. *)
Definition grpc_chttp2_connector_create
    (server_name : string) (installer : handshaker_installer)
    (user_data : nat) : M nat :=
  c <- alloc (OConnector server_name installer user_data) ;;
  emit (EvConnectorCreate server_name user_data c) ;;
  ret c.

(** Modelled from the spec: [grpc_subchannel_create], absent from the
    sources; constructs the subchannel, which may take a reference of its
    own to the connector. *)
Definition grpc_subchannel_create (connector : nat)
    (args : grpc_subchannel_args) : M nat :=
  load connector ;;
  s <- (if subchannel_retains args
        then gpr_ref connector ;; alloc (OSubchannel (Some connector) args)
        else alloc (OSubchannel None args)) ;;
  emit (EvSubchannelCreate connector s) ;;
  ret s.

(** Modelled from the spec: [grpc_connector_unref], absent from the
    sources. *)
Definition grpc_connector_unref (c : nat) : M unit :=
  emit (EvConnectorUnref c) ;;
  unref_and_destroy c.

(** [client_channel_factory_create_subchannel]. *)
Definition client_channel_factory_create_subchannel
    (cc_factory : nat) (args : grpc_subchannel_args) : M nat :=
  f <- load cc_factory ;;
  match obj f with
  | OFactory security_connector =>
      connector <- grpc_chttp2_connector_create
                     (server_name args) Add_handshakers security_connector ;;
      s <- grpc_subchannel_create connector args ;;
      grpc_connector_unref connector ;;
      ret s
  | _ => fault
  end.

(** [client_channel_factory_create_channel].  The [type] argument is not
    read by the C function. *)
Definition client_channel_factory_create_channel
    (cc_factory : nat) (target : string) (type : grpc_client_channel_type)
    (args : nat) : M (option nat) :=
  channel <- grpc_channel_create target args ;;
  resolver <- grpc_resolver_create target args ;;
  match resolver with
  | None =>
      GRPC_CHANNEL_INTERNAL_UNREF channel
                                  "client_channel_factory_create_channel" ;;
      ret None
  | Some r =>
      grpc_client_channel_finish_initialization channel r cc_factory ;;
      GRPC_RESOLVER_UNREF r "create_channel" ;;
      ret (Some channel)
  end.

(** [client_channel_factory_vtable]: the four slots of the factory. *)
Record grpc_client_channel_factory_vtable := Vtable {
  vt_ref : nat -> M unit;
  vt_unref : nat -> M unit;
  vt_create_subchannel : nat -> grpc_subchannel_args -> M nat;
  vt_create_channel :
    nat -> string -> grpc_client_channel_type -> nat -> M (option nat)
}.

Definition client_channel_factory_vtable : grpc_client_channel_factory_vtable :=
  Vtable client_channel_factory_ref client_channel_factory_unref
         client_channel_factory_create_subchannel
         client_channel_factory_create_channel.

(** [grpc_client_channel_factory_unref]: dispatch through the vtable. *)
Definition grpc_client_channel_factory_unref (factory : nat) : M unit :=
  vt_unref client_channel_factory_vtable factory.

(** ** The entry point *)

(** [grpc_secure_channel_create].  [reserved] is [true] for a NULL pointer.
    The result is [None] for a NULL channel.  [grpc_exec_ctx_finish] has
    nothing to run: no closure is scheduled on this path. *)
Definition grpc_secure_channel_create
    (creds : nat) (target : string) (args : grpc_channel_args)
    (reserved_is_null : bool) : M (option nat) :=
  emit (EvApiTrace "grpc_secure_channel_create") ;;
  GPR_ASSERT reserved_is_null ;;
  match grpc_find_security_connector_in_args args with
  | Some _ =>
      emit (EvLog "Cannot set security context in channel args.") ;;
      ch <- grpc_lame_client_channel_create
              target GRPC_STATUS_INTERNAL
              "Security connector exists in channel args." ;;
      ret (Some ch)
  | None =>
      r <- grpc_channel_credentials_create_security_connector
             creds target args ;;
      match r with
      | None =>
          ch <- grpc_lame_client_channel_create
                  target GRPC_STATUS_INTERNAL
                  "Failed to create security connector." ;;
          ret (Some ch)
      | Some (security_connector, new_args_from_connector) =>
          let connector_arg :=
            grpc_security_connector_to_arg security_connector in
          src <- match new_args_from_connector with
                 | Some d => load_args d
                 | None => ret args
                 end ;;
          new_args <- grpc_channel_args_copy_and_add src [connector_arg] ;;
          match new_args_from_connector with
          | Some d => grpc_channel_args_destroy d
          | None => ret tt
          end ;;
          f <- alloc (OFactory 0) ;;
          GRPC_SECURITY_CONNECTOR_REF security_connector
                                      "grpc_secure_channel_create" ;;
          f0 <- load f ;;
          store f (Cell (refs f0) (OFactory security_connector)) ;;
          channel <- client_channel_factory_create_channel
                       f target GRPC_CLIENT_CHANNEL_TYPE_REGULAR new_args ;;
          fc <- load f ;;
          match obj fc with
          | OFactory sc =>
              GRPC_SECURITY_CONNECTOR_UNREF
                sc "secure_client_channel_factory_create_channel"
          | _ => fault
          end ;;
          grpc_channel_args_destroy new_args ;;
          grpc_client_channel_factory_unref f ;;
          ret channel
      end
  end.

End SecureChannelCreate.

(** ** Vocabulary of the statements *)

(** The allocator invariant: nothing lives at or above the next address. *)
Definition fresh_from (s : state) : Prop :=
  forall a, next s <= a -> heap s !! a = None.

(** The args [grpc_secure_channel_create] copies from: the derived args when
    the connector handed some back, the caller's otherwise
    ([new_args_from_connector != NULL ? new_args_from_connector : args]). *)
Definition merge_source (args : grpc_channel_args)
    (new_args_from_connector : option grpc_channel_args) : grpc_channel_args :=
  match new_args_from_connector with
  | Some d => d
  | None => args
  end.

(** The entries of [new_args]: the source followed by the connector entry. *)
Definition merged_args (K : string) (args : grpc_channel_args)
    (new_args_from_connector : option grpc_channel_args) (sc : nat)
  : grpc_channel_args :=
  merge_source args new_args_from_connector
    ++ [grpc_security_connector_to_arg K sc].

(** Whether some entry of the args has the given key. *)
Definition has_key (k : string) (l : grpc_channel_args) : bool :=
  existsb (fun a => String.eqb (key a) k) l.

(** The merge as the specification words it: the derived entries first, the
    caller's entries second, overriding the derived ones on a key conflict,
    and the connector entry last. *)
Definition merge_as_specified (base : grpc_channel_args)
    (derived : option grpc_channel_args) (connector_arg : grpc_arg)
  : grpc_channel_args :=
  List.filter (fun a => negb (has_key (key a) base))
              (match derived with Some d => d | None => [] end)
    ++ base ++ [connector_arg].

(** The number of security-state entries of a configuration. *)
Definition security_entries (K : string) (l : grpc_channel_args) : nat :=
  length (List.filter
            (fun a => match grpc_security_connector_from_arg K a with
                      | Some _ => true
                      | None => false
                      end) l).

(** The references an object holds.  A transport connector keeps the
    security connector as the plain argument of its handshaker callback, not
    as a counted reference. *)
Definition held_by (o : object) : list nat :=
  match o with
  | OFactory sc => [sc]
  | OChannel _ _ (Some (resolver, factory)) => [resolver; factory]
  | OSubchannel (Some c) _ => [c]
  | _ => []
  end.

(** Adding cells to a heap. *)
Definition install (l : list (nat * cell)) (h : gmap nat cell) : gmap nat cell :=
  foldr (fun p m => <[fst p := snd p]> m) h l.

(** How many references to [a] the objects of [l] hold. *)
Definition holders (a : nat) (l : list (nat * cell)) : nat :=
  count_occ Nat.eq_dec (concat (map (fun p => held_by (obj (snd p))) l)) a.

(** Reference counts are balanced on a group of cells whose handle [root]
    was given to the caller: each count is the number of references held
    inside the group, plus one for the caller's handle. *)
Definition balanced (root : option nat) (l : list (nat * cell)) : Prop :=
  Forall (fun p =>
            refs (snd p) =
            holders (fst p) l + (if decide (root = Some (fst p)) then 1 else 0))
         l.

(** How many of the calls destroy the args at [a]. *)
Definition args_destroy_count (a : nat) (evs : list event) : nat :=
  length (List.filter
            (fun e => match e with
                      | EvArgsDestroy b => Nat.eqb a b
                      | _ => false
                      end) evs).

(** How many of the calls release the transport connector at [c]. *)
Definition connector_unref_count (c : nat) (evs : list event) : nat :=
  length (List.filter
            (fun e => match e with
                      | EvConnectorUnref b => Nat.eqb c b
                      | _ => false
                      end) evs).

(** What a call leaves on the heap besides what was there: a lame channel
    alone, or a live channel with its resolver, the factory and the security
    connector. *)
Definition lame_graph (ch : nat) (target msg : string) : list (nat * cell) :=
  [(ch, Cell 1 (OLameChannel target GRPC_STATUS_INTERNAL msg))].

Definition live_graph (ch res f sc creds : nat) (target : string)
    (cfg : grpc_channel_args) : list (nat * cell) :=
  [(res, Cell 1 (OResolver target));
   (ch, Cell 1 (OChannel target cfg (Some (res, f))));
   (f, Cell 1 (OFactory sc));
   (sc, Cell 1 (OSecurityConnector creds target))].

(** Running a call [k] times in a row. *)
Fixpoint times (k : nat) (m : M unit) : M unit :=
  match k with
  | O => ret tt
  | S k' => m ;; times k' m
  end.

(** ** Concrete collaborators, for the examples *)

Module Example.

Definition key_name : string := "grpc.security_connector".

Definition init_state : state := State ∅ 1 [].

(** Credentials [0] are rejected; credentials [1] give a connector and no
    derived args; any other give a connector and one derived entry. *)
Definition policy (creds : nat) (target : string) (args : grpc_channel_args)
  : option (option grpc_channel_args) :=
  match creds with
  | 0 => None
  | 1 => Some None
  | _ => Some (Some [Arg "grpc.ssl_target_name_override" (ArgString target)])
  end.

(** Every target resolves, the empty one excepted. *)
Definition registry (target : string) (args : grpc_channel_args) : bool :=
  negb (String.eqb target "").

(** A subchannel keeps its connector unless the server name is empty. *)
Definition retains (args : grpc_subchannel_args) : bool :=
  negb (String.eqb (server_name args) "").

Definition create :=
  grpc_secure_channel_create key_name policy registry retains.

(** A state with a security connector at [1] and a factory at [2]. *)
Definition factory_state : state :=
  State (<[2 := Cell 1 (OFactory 1)]>
           (<[1 := Cell 1 (OSecurityConnector 1 "example.com:443")]> ∅))
        3 [].

End Example.

(** More states for the examples. *)
Module Fixture.

(** A security connector at [1] and, at [2], a factory held twice. *)
Definition shared_factory_state : state :=
  State (<[2 := Cell 2 (OFactory 1)]>
           (<[1 := Cell 1 (OSecurityConnector 1 "example.com:443")]> ∅))
        3 [].

(** A security connector at [1], merged args at [2] and a factory at [3]:
    the state in which [grpc_secure_channel_create] calls
    [client_channel_factory_create_channel]. *)
Definition channel_ready_state : state :=
  State (<[3 := Cell 1 (OFactory 1)]>
           (<[2 := Cell 1 (OArgs [Arg Example.key_name (ArgPointer 1)])]>
              (<[1 := Cell 2 (OSecurityConnector 1 "example.com:443")]> ∅)))
        4 [].

(** Credentials whose connector hands back derived args that carry a
    security-state entry of their own. *)
Definition stateful_policy (creds : nat) (target : string)
    (args : grpc_channel_args) : option (option grpc_channel_args) :=
  Some (Some [Arg Example.key_name (ArgPointer 9)]).

End Fixture.

(** ** Symbolic execution *)

Create HintDb code.

#[local] Hint Unfold
  grpc_secure_channel_create grpc_lame_client_channel_create
  grpc_channel_credentials_create_security_connector load_args
  grpc_channel_args_copy_and_add grpc_channel_args_destroy
  GRPC_SECURITY_CONNECTOR_REF GRPC_SECURITY_CONNECTOR_UNREF
  grpc_channel_create grpc_resolver_create GRPC_CHANNEL_INTERNAL_UNREF
  GRPC_RESOLVER_UNREF client_channel_factory_ref client_channel_factory_unref
  grpc_client_channel_finish_initialization grpc_chttp2_connector_create
  grpc_subchannel_create grpc_connector_unref
  client_channel_factory_create_subchannel
  client_channel_factory_create_channel grpc_client_channel_factory_unref
  unref_and_destroy gpr_ref gpr_unref gpr_free GPR_ASSERT
  bind load store alloc emit ret fault abort : code.

Ltac heap_simpl :=
  repeat first
    [ rewrite lookup_insert_eq
    | rewrite lookup_insert_ne by lia
    | rewrite lookup_delete_eq
    | rewrite lookup_delete_ne by lia ].

Ltac step_code := autounfold with code; simpl; heap_simpl.
Ltac run_code := repeat (progress step_code).

Ltac norm_addr := rewrite ?Nat.add_succ_r, ?Nat.add_0_r.

(** Membership in an explicit list. *)
Ltac in_list := simpl; repeat (first [left; reflexivity | right]); fail.

(** Split on whether [i] is one of the [k] addresses from [a] on. *)
Ltac cases_from i a k :=
  lazymatch k with
  | O => idtac
  | S ?k' => destruct (decide (i = a)) as [->|?]; [ | cases_from i (S a) k' ]
  end.

(** Two heaps built from [h] by insertions and deletions at the [k]
    addresses from [n] on are equal when they agree there. *)
Ltac heap_eq Hfresh n k :=
  apply map_eq; intros i;
  destruct (decide (i < n));
  [ heap_simpl; reflexivity
  | cases_from i n k;
    heap_simpl; rewrite ?Hfresh by lia; reflexivity ].

Ltac state_eq Hfresh n k :=
  f_equal; f_equal;
  [ heap_eq Hfresh n k
  | rewrite <- ?app_assoc; reflexivity ].

Section Paths.

Variable K : string.
Variable security_policy :
  nat -> string -> grpc_channel_args -> option (option grpc_channel_args).
Variable resolver_registry : string -> grpc_channel_args -> bool.
Variable subchannel_retains : grpc_subchannel_args -> bool.

Abbreviation create :=
  (grpc_secure_channel_create K security_policy resolver_registry
                              subchannel_retains).
Abbreviation find := (grpc_find_security_connector_in_args K).
Abbreviation to_arg := (grpc_security_connector_to_arg K).

Variables (creds : nat) (target : string) (args : grpc_channel_args).
Variables (h : gmap nat cell) (n : nat) (t : list event).

Lemma run_abort :
  create creds target args false (State h n t)
  = Abort (State h n (t ++ [EvApiTrace "grpc_secure_channel_create"])).
Proof. reflexivity. Qed.

Lemma run_guard p :
  find args = Some p ->
  create creds target args true (State h n t)
  = Done (Some n)
      (State (<[n := Cell 1 (OLameChannel target GRPC_STATUS_INTERNAL
                  "Security connector exists in channel args.")]> h)
             (n + 1)
             (t ++ [EvApiTrace "grpc_secure_channel_create";
                    EvLog "Cannot set security context in channel args.";
                    EvLameChannelCreate target GRPC_STATUS_INTERNAL
                      "Security connector exists in channel args."])).
Proof.
  intros Hfind. norm_addr. autounfold with code. simpl. rewrite Hfind. simpl.
  rewrite <- ?app_assoc. reflexivity.
Qed.

Lemma run_connector_failure :
  find args = None ->
  security_policy creds target args = None ->
  create creds target args true (State h n t)
  = Done (Some n)
      (State (<[n := Cell 1 (OLameChannel target GRPC_STATUS_INTERNAL
                  "Failed to create security connector.")]> h)
             (n + 1)
             (t ++ [EvApiTrace "grpc_secure_channel_create";
                    EvCreateSecurityConnector creds target None;
                    EvLameChannelCreate target GRPC_STATUS_INTERNAL
                      "Failed to create security connector."])).
Proof.
  intros Hfind Hpol. norm_addr. autounfold with code. simpl.
  rewrite Hfind, Hpol. simpl. rewrite <- ?app_assoc. reflexivity.
Qed.

Hypothesis Hfresh : forall a, n <= a -> h !! a = None.

Lemma run_success_plain :
  find args = None ->
  security_policy creds target args = Some None ->
  resolver_registry target (merged_args K args None n) = true ->
  create creds target args true (State h n t)
  = Done (Some (n + 3))
      (State
         (<[n + 4 := Cell 1 (OResolver target)]>
            (<[n + 3 := Cell 1 (OChannel target (merged_args K args None n)
                                         (Some (n + 4, n + 2)))]>
               (<[n + 2 := Cell 1 (OFactory n)]>
                  (<[n := Cell 1 (OSecurityConnector creds target)]> h))))
         (n + 5)
         (t ++ [EvApiTrace "grpc_secure_channel_create";
                EvCreateSecurityConnector creds target (Some (n, None));
                EvArgsCopyAndAdd args [to_arg n] (n + 1);
                EvSecurityConnectorRef n "grpc_secure_channel_create";
                EvChannelCreate target (merged_args K args None n) (n + 3);
                EvResolverCreate target (merged_args K args None n) true;
                EvFinishInitialization (n + 3) (n + 4) (n + 2);
                EvResolverUnref (n + 4) "create_channel";
                EvSecurityConnectorUnref
                  n "secure_client_channel_factory_create_channel";
                EvArgsDestroy (n + 1)])).
Proof.
  unfold merged_args, merge_source. intros Hfind Hpol Hres. norm_addr.
  autounfold with code. simpl. rewrite Hfind, Hpol.
  run_code. rewrite Hres. run_code.
  state_eq Hfresh n 5.
Qed.

Lemma run_success_derived d :
  find args = None ->
  security_policy creds target args = Some (Some d) ->
  resolver_registry target (merged_args K args (Some d) n) = true ->
  create creds target args true (State h n t)
  = Done (Some (n + 4))
      (State
         (<[n + 5 := Cell 1 (OResolver target)]>
            (<[n + 4 := Cell 1 (OChannel target
                                         (merged_args K args (Some d) n)
                                         (Some (n + 5, n + 3)))]>
               (<[n + 3 := Cell 1 (OFactory n)]>
                  (<[n := Cell 1 (OSecurityConnector creds target)]> h))))
         (n + 6)
         (t ++ [EvApiTrace "grpc_secure_channel_create";
                EvCreateSecurityConnector creds target
                  (Some (n, Some (n + 1)));
                EvArgsCopyAndAdd d [to_arg n] (n + 2);
                EvArgsDestroy (n + 1);
                EvSecurityConnectorRef n "grpc_secure_channel_create";
                EvChannelCreate target (merged_args K args (Some d) n)
                                (n + 4);
                EvResolverCreate target (merged_args K args (Some d) n) true;
                EvFinishInitialization (n + 4) (n + 5) (n + 3);
                EvResolverUnref (n + 5) "create_channel";
                EvSecurityConnectorUnref
                  n "secure_client_channel_factory_create_channel";
                EvArgsDestroy (n + 2)])).
Proof.
  unfold merged_args, merge_source. intros Hfind Hpol Hres. norm_addr.
  autounfold with code. simpl. rewrite Hfind, Hpol.
  run_code. rewrite Hres. run_code.
  state_eq Hfresh n 6.
Qed.

Lemma run_resolver_failure_plain :
  find args = None ->
  security_policy creds target args = Some None ->
  resolver_registry target (merged_args K args None n) = false ->
  create creds target args true (State h n t)
  = Done None
      (State h (n + 4)
         (t ++ [EvApiTrace "grpc_secure_channel_create";
                EvCreateSecurityConnector creds target (Some (n, None));
                EvArgsCopyAndAdd args [to_arg n] (n + 1);
                EvSecurityConnectorRef n "grpc_secure_channel_create";
                EvChannelCreate target (merged_args K args None n) (n + 3);
                EvResolverCreate target (merged_args K args None n) false;
                EvChannelInternalUnref
                  (n + 3) "client_channel_factory_create_channel";
                EvSecurityConnectorUnref
                  n "secure_client_channel_factory_create_channel";
                EvArgsDestroy (n + 1);
                EvSecurityConnectorUnref n "client_channel_factory"])).
Proof.
  unfold merged_args, merge_source. intros Hfind Hpol Hres. norm_addr.
  autounfold with code. simpl. rewrite Hfind, Hpol.
  run_code. rewrite Hres. run_code.
  state_eq Hfresh n 4.
Qed.

Lemma run_resolver_failure_derived d :
  find args = None ->
  security_policy creds target args = Some (Some d) ->
  resolver_registry target (merged_args K args (Some d) n) = false ->
  create creds target args true (State h n t)
  = Done None
      (State h (n + 5)
         (t ++ [EvApiTrace "grpc_secure_channel_create";
                EvCreateSecurityConnector creds target
                  (Some (n, Some (n + 1)));
                EvArgsCopyAndAdd d [to_arg n] (n + 2);
                EvArgsDestroy (n + 1);
                EvSecurityConnectorRef n "grpc_secure_channel_create";
                EvChannelCreate target (merged_args K args (Some d) n)
                                (n + 4);
                EvResolverCreate target (merged_args K args (Some d) n) false;
                EvChannelInternalUnref
                  (n + 4) "client_channel_factory_create_channel";
                EvSecurityConnectorUnref
                  n "secure_client_channel_factory_create_channel";
                EvArgsDestroy (n + 2);
                EvSecurityConnectorUnref n "client_channel_factory"])).
Proof.
  unfold merged_args, merge_source. intros Hfind Hpol Hres. norm_addr.
  autounfold with code. simpl. rewrite Hfind, Hpol.
  run_code. rewrite Hres. run_code.
  state_eq Hfresh n 5.
Qed.

End Paths.

Section SubchannelPaths.

Variable subchannel_retains : grpc_subchannel_args -> bool.

Abbreviation create_subchannel :=
  (client_channel_factory_create_subchannel subchannel_retains).

Variables (f r sc : nat) (sargs : grpc_subchannel_args).
Variables (h : gmap nat cell) (n : nat) (t : list event).

Hypothesis Hlive : h !! f = Some (Cell r (OFactory sc)).

Lemma run_subchannel_retained :
  subchannel_retains sargs = true ->
  create_subchannel f sargs (State h n t)
  = Done (n + 1)
      (State (<[n + 1 := Cell 1 (OSubchannel (Some n) sargs)]>
                (<[n := Cell 1 (OConnector (server_name sargs)
                                           Add_handshakers sc)]> h))
             (n + 2)
             (t ++ [EvConnectorCreate (server_name sargs) sc n;
                    EvSubchannelCreate n (n + 1);
                    EvConnectorUnref n])).
Proof.
  intros Hret. norm_addr. autounfold with code. simpl. rewrite Hlive. simpl.
  run_code. rewrite Hret. run_code.
  f_equal. f_equal.
  - apply map_eq; intros i.
    destruct (decide (i = S n)) as [->|?]; [heap_simpl; reflexivity|].
    destruct (decide (i = n)) as [->|?]; heap_simpl; reflexivity.
  - rewrite <- ?app_assoc. reflexivity.
Qed.

Lemma run_subchannel_not_retained :
  (forall a, n <= a -> h !! a = None) ->
  subchannel_retains sargs = false ->
  create_subchannel f sargs (State h n t)
  = Done (n + 1)
      (State (<[n + 1 := Cell 1 (OSubchannel None sargs)]> h)
             (n + 2)
             (t ++ [EvConnectorCreate (server_name sargs) sc n;
                    EvSubchannelCreate n (n + 1);
                    EvConnectorUnref n])).
Proof.
  intros Hfresh Hret. norm_addr. autounfold with code. simpl.
  rewrite Hlive. simpl.
  run_code. rewrite Hret. run_code.
  state_eq Hfresh n 2.
Qed.

(** The factory of a well-formed state lies below the next address. *)
Lemma live_below_next :
  (forall a, n <= a -> h !! a = None) -> f < n.
Proof.
  intros Hfresh. destruct (decide (f < n)) as [|Hge]; [assumption|].
  rewrite Hfresh in Hlive by lia. discriminate.
Qed.

End SubchannelPaths.

(** ** Facts on channel args *)

Section Args.

Variable K : string.

Lemma security_entries_app l1 l2 :
  security_entries K (l1 ++ l2) = security_entries K l1 + security_entries K l2.
Proof.
  unfold security_entries. rewrite List.filter_app, length_app. reflexivity.
Qed.

Lemma from_arg_to_arg sc :
  grpc_security_connector_from_arg K (grpc_security_connector_to_arg K sc)
  = Some sc.
Proof.
  unfold grpc_security_connector_from_arg, grpc_security_connector_to_arg.
  simpl. rewrite String.eqb_refl. reflexivity.
Qed.

Lemma security_entries_to_arg sc :
  security_entries K [grpc_security_connector_to_arg K sc] = 1.
Proof.
  unfold security_entries. simpl. rewrite from_arg_to_arg. reflexivity.
Qed.

Lemma find_none_no_entries l :
  grpc_find_security_connector_in_args K l = None ->
  security_entries K l = 0.
Proof.
  unfold security_entries. induction l as [|a l IH]; simpl; [reflexivity|].
  destruct (grpc_security_connector_from_arg K a); [discriminate|].
  exact IH.
Qed.

Lemma merged_args_one_entry args derived sc :
  grpc_find_security_connector_in_args K (merge_source args derived) = None ->
  security_entries K (merged_args K args derived sc) = 1.
Proof.
  intros Hnone. unfold merged_args.
  rewrite security_entries_app, security_entries_to_arg.
  rewrite (find_none_no_entries _ Hnone). reflexivity.
Qed.

Lemma merged_args_last args derived sc :
  last (merged_args K args derived sc)
  = Some (grpc_security_connector_to_arg K sc).
Proof. unfold merged_args. apply last_snoc. Qed.

End Args.

(** ** The entry point: guard, connector failure, assertion *)

(** Case analysis on the path [grpc_secure_channel_create] takes from a
    state [State h n t] with nothing live from [n] on. *)
Ltac case_paths K pol reg args creds target n :=
  let Hfind := fresh "Hfind" in
  let Hpol := fresh "Hpol" in
  let Hres := fresh "Hres" in
  let d := fresh "d" in
  destruct (grpc_find_security_connector_in_args K args) as [?|] eqn:Hfind;
  [ erewrite run_guard by exact Hfind
  | destruct (pol creds target args) as [[d|]|] eqn:Hpol;
    [ destruct (reg target (merged_args K args (Some d) n)) eqn:Hres;
      [ erewrite run_success_derived by eassumption
      | erewrite run_resolver_failure_derived by eassumption ]
    | destruct (reg target (merged_args K args None n)) eqn:Hres;
      [ erewrite run_success_plain by eassumption
      | erewrite run_resolver_failure_plain by eassumption ]
    | erewrite run_connector_failure by eassumption ] ].

Section Claims.

Variable K : string.
Variable security_policy :
  nat -> string -> grpc_channel_args -> option (option grpc_channel_args).
Variable resolver_registry : string -> grpc_channel_args -> bool.
Variable subchannel_retains : grpc_subchannel_args -> bool.

Abbreviation secure_channel_create :=
  (grpc_secure_channel_create K security_policy resolver_registry
                              subchannel_retains).
Abbreviation create_subchannel :=
  (client_channel_factory_create_subchannel subchannel_retains).

(** With a NULL [reserved] the call returns from every state, fresh or
    not: no path faults and no path aborts. *)
Lemma create_returns creds target args s :
  exists r s', secure_channel_create creds target args true s = Done r s'.
Proof.
  destruct s as [h n t].
  autounfold with code. simpl.
  destruct (grpc_find_security_connector_in_args K args); simpl; [eauto|].
  destruct (security_policy creds target args) as [[d|]|]; simpl; [| |eauto].
  - run_code.
    destruct (resolver_registry target _); run_code; eauto.
  - run_code.
    destruct (resolver_registry target _); run_code; eauto.
Qed.

(** C1: when the channel args already carry a security connector entry,
    [grpc_secure_channel_create] returns a lame channel with status
    [GRPC_STATUS_INTERNAL] and the message "Security connector exists in
    channel args."; the heap gains that channel and nothing else, and the
    connector creation step is not called. *)
Theorem existing_connector_gives_lame_channel creds target args p s :
  grpc_find_security_connector_in_args K args = Some p ->
  exists s' evs,
    secure_channel_create creds target args true s = Done (Some (next s)) s'
    /\ heap s'
       = <[next s := Cell 1 (OLameChannel target GRPC_STATUS_INTERNAL
                      "Security connector exists in channel args.")]> (heap s)
    /\ trace s' = trace s ++ evs
    /\ forall c tg r, ~ In (EvCreateSecurityConnector c tg r) evs.
Proof.
  intros Hfind. destruct s as [h n t]. simpl.
  erewrite run_guard by exact Hfind.
  eexists _, _. split; [reflexivity|]. simpl.
  split; [reflexivity|]. split; [reflexivity|].
  intros c tg r [H|[H|[H|[]]]]; discriminate.
Qed.

(** Walk down an explicit call log [H : pre ++ e :: post = log] and find the
    wanted earlier call in [pre]. *)
Ltac scan_log pre H fin :=
  destruct pre as [|? pre]; simpl in H;
  [ first [ discriminate H
          | injection H as ? ?; subst; fin ]
  | first [ discriminate H
          | injection H as -> H; scan_log pre H fin ] ].

(** C2: when the credentials cannot be turned into a security connector,
    [grpc_secure_channel_create] returns a lame channel with status
    [GRPC_STATUS_INTERNAL] and the message "Failed to create security
    connector.", and no resolver is created on that run; on any run at all,
    a resolver is created only when the connector step succeeded, and after
    it. *)
Theorem connector_failure_gives_lame_channel creds target args s :
  grpc_find_security_connector_in_args K args = None ->
  security_policy creds target args = None ->
  (exists s' evs,
      secure_channel_create creds target args true s = Done (Some (next s)) s'
      /\ heap s'
         = <[next s := Cell 1 (OLameChannel target GRPC_STATUS_INTERNAL
                        "Failed to create security connector.")]> (heap s)
      /\ trace s' = trace s ++ evs
      /\ forall tg a ok, ~ In (EvResolverCreate tg a ok) evs)
  /\ (forall creds' target' args' reserved s0 r s1 pre post tg a ok,
         fresh_from s0 ->
         secure_channel_create creds' target' args' reserved s0 = Done r s1 ->
         trace s1 = trace s0 ++ pre ++ EvResolverCreate tg a ok :: post ->
         security_policy creds' target' args' <> None
         /\ exists sc d,
             In (EvCreateSecurityConnector creds' target' (Some (sc, d)))
                pre).
Proof.
  intros Hfind Hpol. split.
  - destruct s as [h n t]. simpl.
    erewrite run_connector_failure by eassumption.
    eexists _, _. split; [reflexivity|]. simpl.
    split; [reflexivity|]. split; [reflexivity|].
    intros tg a ok [H|[H|[H|[]]]]; discriminate.
  - clear. intros creds target args reserved [h n t] r s1 pre post tg a ok Hf.
    unfold fresh_from in Hf. simpl in Hf.
    destruct reserved; [|rewrite run_abort; discriminate].
    case_paths K security_policy resolver_registry args creds target n;
      intros [= _ <-]; simpl; intros Ht%app_inv_head; symmetry in Ht;
      scan_log pre Ht ltac:(split; [discriminate | eexists _, _; in_list]).
Qed.

(** C8: [reserved == NULL] is asserted on entry.  With a non-null
    [reserved] the call dies on the assertion, having touched nothing but the
    API trace: it returns neither a lame channel nor NULL.  With a NULL
    [reserved] it returns from every state. *)
Theorem reserved_must_be_null creds target args s :
  grpc_secure_channel_create K security_policy resolver_registry
                             subchannel_retains creds target args false s
  = Abort (State (heap s) (next s)
                 (trace s ++ [EvApiTrace "grpc_secure_channel_create"]))
  /\ (forall r s',
         grpc_secure_channel_create K security_policy resolver_registry
                                    subchannel_retains creds target args
                                    false s
         <> Done r s')
  /\ exists r s',
      grpc_secure_channel_create K security_policy resolver_registry
                                 subchannel_retains creds target args true s
      = Done r s'.
Proof.
  split; [destruct s; apply run_abort|].
  split; [destruct s; rewrite run_abort; discriminate|].
  apply create_returns.
Qed.

(** ** The entry point: resolver failure, merge, reference balance *)

(** C3: when the resolver cannot be created, after the connector and the
    factory were built, [grpc_secure_channel_create] returns NULL and leaves
    the heap as it found it: the channel, the merged args, the factory and
    the security connector are all released.  With a NULL [reserved], that is
    the only way it returns NULL. *)
Theorem resolver_failure_releases_all_and_returns_null creds target args s :
  fresh_from s ->
  (forall derived,
      grpc_find_security_connector_in_args K args = None ->
      security_policy creds target args = Some derived ->
      resolver_registry target (merged_args K args derived (next s)) = false ->
      exists s' evs ch new_args,
        secure_channel_create creds target args true s = Done None s'
        /\ heap s' = heap s
        /\ trace s' = trace s ++ evs
        /\ In (EvArgsCopyAndAdd (merge_source args derived)
                 [grpc_security_connector_to_arg K (next s)] new_args) evs
        /\ In (EvChannelCreate target
                 (merged_args K args derived (next s)) ch) evs
        /\ In (EvChannelInternalUnref
                 ch "client_channel_factory_create_channel") evs
        /\ In (EvArgsDestroy new_args) evs
        /\ In (EvSecurityConnectorUnref
                 (next s) "secure_client_channel_factory_create_channel") evs
        /\ In (EvSecurityConnectorUnref
                 (next s) "client_channel_factory") evs)
  /\ (forall s',
         secure_channel_create creds target args true s = Done None s' ->
         grpc_find_security_connector_in_args K args = None
         /\ exists derived,
             security_policy creds target args = Some derived
             /\ resolver_registry
                  target (merged_args K args derived (next s)) = false).
Proof.
  destruct s as [h n t]. unfold fresh_from. simpl. intros Hf. split.
  - intros [d|] Hfind Hpol Hres.
    + erewrite run_resolver_failure_derived by eassumption.
      eexists _, _, _, _. split; [reflexivity|]. simpl.
      split; [reflexivity|]. split; [reflexivity|].
      repeat split; in_list.
    + erewrite run_resolver_failure_plain by eassumption.
      eexists _, _, _, _. split; [reflexivity|]. simpl.
      split; [reflexivity|]. split; [reflexivity|].
      repeat split; in_list.
  - intros s'.
    case_paths K security_policy resolver_registry args creds target n;
      intros [= <-]; split; try reflexivity; eauto.
Qed.

(** C4 (amended): the merged args are the derived args when the connector
    step handed some back, the caller's args otherwise, followed by the
    connector entry, which comes last; they are what the channel is created
    from.  The connector entry is the only security-state entry of the
    result whenever the args copied from have none, as the caller's args do
    once the guard has passed. *)
Theorem merged_args_are_source_then_connector_entry
    creds target args derived s :
  fresh_from s ->
  grpc_find_security_connector_in_args K args = None ->
  security_policy creds target args = Some derived ->
  exists r s' evs new_args ch,
    secure_channel_create creds target args true s = Done r s'
    /\ trace s' = trace s ++ evs
    /\ In (EvArgsCopyAndAdd (merge_source args derived)
             [grpc_security_connector_to_arg K (next s)] new_args) evs
    /\ In (EvChannelCreate target
             (merge_source args derived
                ++ [grpc_security_connector_to_arg K (next s)]) ch) evs
    /\ last (merged_args K args derived (next s))
       = Some (grpc_security_connector_to_arg K (next s))
    /\ (grpc_find_security_connector_in_args K (merge_source args derived)
        = None ->
        security_entries K (merged_args K args derived (next s)) = 1)
    /\ (derived = None ->
        security_entries K (merged_args K args derived (next s)) = 1).
Proof.
  destruct s as [h n t]. unfold fresh_from. simpl. intros Hf Hfind Hpol.
  assert (Hpure :
    last (merged_args K args derived n)
    = Some (grpc_security_connector_to_arg K n)
    /\ (grpc_find_security_connector_in_args K (merge_source args derived)
        = None -> security_entries K (merged_args K args derived n) = 1)
    /\ (derived = None ->
        security_entries K (merged_args K args derived n) = 1)).
  { split; [apply merged_args_last|].
    split; [apply merged_args_one_entry|].
    intros ->. apply merged_args_one_entry. exact Hfind. }
  destruct derived as [d|].
  - destruct (resolver_registry target (merged_args K args (Some d) n))
      eqn:Hres.
    + erewrite run_success_derived by eassumption.
      eexists _, _, _, _, _. split; [reflexivity|]. simpl.
      split; [reflexivity|]. split; [in_list|]. split; [in_list|].
      exact Hpure.
    + erewrite run_resolver_failure_derived by eassumption.
      eexists _, _, _, _, _. split; [reflexivity|]. simpl.
      split; [reflexivity|]. split; [in_list|]. split; [in_list|].
      exact Hpure.
  - destruct (resolver_registry target (merged_args K args None n)) eqn:Hres.
    + erewrite run_success_plain by eassumption.
      eexists _, _, _, _, _. split; [reflexivity|]. simpl.
      split; [reflexivity|]. split; [in_list|]. split; [in_list|].
      exact Hpure.
    + erewrite run_resolver_failure_plain by eassumption.
      eexists _, _, _, _, _. split; [reflexivity|]. simpl.
      split; [reflexivity|]. split; [in_list|]. split; [in_list|].
      exact Hpure.
Qed.

Ltac balanced_cells :=
  unfold balanced, holders; simpl;
  repeat (apply Forall_cons; split);
  try apply Forall_nil; simpl;
  repeat (destruct (Nat.eq_dec _ _); try lia);
  repeat (case_decide; simplify_eq; try lia);
  try exact I.

Ltac fresh_cells :=
  repeat (apply Forall_cons; split);
  try apply Forall_nil; simpl; try exact I; lia.

Ltac nodup_cells :=
  simpl; repeat (apply NoDup_cons; split);
  try apply NoDup_nil_2;
  rewrite ?list_elem_of_In; simpl; lia.

(** C5: from a well-formed state and with a NULL [reserved], every run of
    [grpc_secure_channel_create] returns without touching a dead object, and
    what it leaves on the heap is exactly the object graph behind the
    returned handle, at fresh addresses, with every reference count equal to
    the number of references held: nothing for NULL, a lame channel alone, or
    a live channel with its resolver, factory and security connector.  In
    the last case the connector's count is 1, the reference held by the
    factory the channel is bound to. *)
Theorem every_path_balances_references creds target args s :
  fresh_from s ->
  (exists r left s',
      secure_channel_create creds target args true s = Done r s'
      /\ heap s' = install left (heap s)
      /\ fresh_from s'
      /\ NoDup (map fst left)
      /\ Forall (fun p => next s <= fst p < next s') left
      /\ balanced r left
      /\ match r with
         | None => left = []
         | Some ch =>
             (exists msg, left = lame_graph ch target msg)
             \/ (exists res f sc cfg,
                    left = live_graph ch res f sc creds target cfg
                    /\ holders sc left = 1
                    /\ holders f left = 1)
         end)
  /\ (exists s',
         secure_channel_create creds target args false s = Abort s'
         /\ heap s' = heap s).
Proof.
  destruct s as [h n t]. unfold fresh_from. simpl. intros Hf.
  split; [|rewrite run_abort; eexists; split; reflexivity].
  case_paths K security_policy resolver_registry args creds target n.
  - eexists _, (lame_graph n target _), _. split; [reflexivity|]. simpl.
    split; [reflexivity|].
    split; [intros a Ha; heap_simpl; apply Hf; lia|].
    split; [nodup_cells|]. split; [fresh_cells|]. split; [balanced_cells|].
    left. eauto.
  - eexists _, (live_graph (n + 4) (n + 5) (n + 3) n creds target _), _.
    split; [reflexivity|]. simpl.
    split; [reflexivity|].
    split; [intros a Ha; heap_simpl; apply Hf; lia|].
    split; [nodup_cells|]. split; [fresh_cells|]. split; [balanced_cells|].
    right. eexists _, _, _, _. split; [reflexivity|].
    split; balanced_cells.
  - eexists _, [], _. split; [reflexivity|]. simpl.
    split; [reflexivity|].
    split; [intros a Ha; apply Hf; lia|].
    split; [nodup_cells|]. split; [fresh_cells|]. split; [balanced_cells|].
    reflexivity.
  - eexists _, (live_graph (n + 3) (n + 4) (n + 2) n creds target _), _.
    split; [reflexivity|]. simpl.
    split; [reflexivity|].
    split; [intros a Ha; heap_simpl; apply Hf; lia|].
    split; [nodup_cells|]. split; [fresh_cells|]. split; [balanced_cells|].
    right. eexists _, _, _, _. split; [reflexivity|].
    split; balanced_cells.
  - eexists _, [], _. split; [reflexivity|]. simpl.
    split; [reflexivity|].
    split; [intros a Ha; apply Hf; lia|].
    split; [nodup_cells|]. split; [fresh_cells|]. split; [balanced_cells|].
    reflexivity.
  - eexists _, (lame_graph n target _), _. split; [reflexivity|]. simpl.
    split; [reflexivity|].
    split; [intros a Ha; heap_simpl; apply Hf; lia|].
    split; [nodup_cells|]. split; [fresh_cells|]. split; [balanced_cells|].
    left. eauto.
Qed.

(** C6 (amended): with credentials that yield a connector, a target that
    resolves, caller args free of security state (the empty args among them)
    and, when the connector step hands back derived args, derived args free
    of security state as well, [grpc_secure_channel_create] returns a live
    channel: it is bound to one resolver and to the factory, and its
    configuration is the merged args, with exactly one security-state
    entry. *)
Theorem valid_inputs_give_live_channel creds target args derived s :
  fresh_from s ->
  grpc_find_security_connector_in_args K args = None ->
  security_policy creds target args = Some derived ->
  grpc_find_security_connector_in_args K (merge_source args derived) = None ->
  resolver_registry target (merged_args K args derived (next s)) = true ->
  exists ch res f s',
    secure_channel_create creds target args true s = Done (Some ch) s'
    /\ heap s'
       = install (live_graph ch res f (next s) creds target
                             (merged_args K args derived (next s)))
                 (heap s)
    /\ heap s' !! ch
       = Some (Cell 1 (OChannel target (merged_args K args derived (next s))
                                (Some (res, f))))
    /\ heap s' !! res = Some (Cell 1 (OResolver target))
    /\ security_entries K (merged_args K args derived (next s)) = 1
    /\ next s < f < ch /\ ch < res < next s'.
Proof.
  destruct s as [h n t]. unfold fresh_from. simpl.
  intros Hf Hfind Hpol Hsrc Hres.
  pose proof (merged_args_one_entry K args derived n Hsrc) as Hone.
  destruct derived as [d|].
  - erewrite run_success_derived by eassumption.
    eexists _, _, _, _. split; [reflexivity|]. simpl.
    split; [reflexivity|].
    split; [heap_simpl; reflexivity|].
    split; [heap_simpl; reflexivity|].
    split; [exact Hone|]. lia.
  - erewrite run_success_plain by eassumption.
    eexists _, _, _, _. split; [reflexivity|]. simpl.
    split; [reflexivity|].
    split; [heap_simpl; reflexivity|].
    split; [heap_simpl; reflexivity|].
    split; [exact Hone|]. lia.
Qed.

(** C10: when the connector step hands back derived args,
    [grpc_secure_channel_create] destroys them once: the call that destroys
    them is the one right after the copy that produces the merged args, no
    later call destroys them again, and they are gone from the heap when the
    function returns, whatever the resolver does. *)
Theorem derived_args_destroyed_once_after_merge creds target args d s :
  fresh_from s ->
  grpc_find_security_connector_in_args K args = None ->
  security_policy creds target args = Some (Some d) ->
  exists r s' post,
    secure_channel_create creds target args true s = Done r s'
    /\ trace s'
       = trace s
         ++ [EvApiTrace "grpc_secure_channel_create";
             EvCreateSecurityConnector
               creds target (Some (next s, Some (next s + 1)));
             EvArgsCopyAndAdd d [grpc_security_connector_to_arg K (next s)]
                              (next s + 2);
             EvArgsDestroy (next s + 1)]
         ++ post
    /\ ~ In (EvArgsDestroy (next s + 1)) post
    /\ (forall evs, trace s' = trace s ++ evs ->
        args_destroy_count (next s + 1) evs = 1)
    /\ heap s' !! (next s + 1) = None.
Proof.
  destruct s as [h n t]. unfold fresh_from. simpl. intros Hf Hfind Hpol.
  destruct (resolver_registry target (merged_args K args (Some d) n))
    eqn:Hres.
  - erewrite run_success_derived by eassumption.
    eexists _, _, _. split; [reflexivity|]. simpl.
    split; [reflexivity|].
    split; [intros Hin;
            repeat (destruct Hin as [Hin|Hin];
                    [try discriminate; injection Hin; lia|]);
            destruct Hin|].
    split; [intros evs <-%app_inv_head; unfold args_destroy_count; simpl;
            rewrite Nat.eqb_refl, (proj2 (Nat.eqb_neq _ _)) by lia;
            reflexivity|].
    heap_simpl. apply Hf. lia.
  - erewrite run_resolver_failure_derived by eassumption.
    eexists _, _, _. split; [reflexivity|]. simpl.
    split; [reflexivity|].
    split; [intros Hin;
            repeat (destruct Hin as [Hin|Hin];
                    [try discriminate; injection Hin; lia|]);
            destruct Hin|].
    split; [intros evs <-%app_inv_head; unfold args_destroy_count; simpl;
            rewrite Nat.eqb_refl, (proj2 (Nat.eqb_neq _ _)) by lia;
            reflexivity|].
    apply Hf. lia.
Qed.

(** ** The factory: subchannel creation *)

(** C7: on a live factory, [client_channel_factory_create_subchannel]
    returns a subchannel for every subchannel args: it builds the transport
    connector from the server name, with [add_handshakers] and the factory's
    security connector as its handshaker, makes the subchannel from it, and
    has no path that faults, aborts or returns without one. *)
Theorem create_subchannel_always_returns_subchannel f r sc sargs s :
  fresh_from s ->
  heap s !! f = Some (Cell r (OFactory sc)) ->
  exists sub c s',
    create_subchannel f sargs s = Done sub s'
    /\ heap s' !! sub
       = Some (Cell 1 (OSubchannel
                         (if subchannel_retains sargs then Some c else None)
                         sargs))
    /\ trace s'
       = trace s ++ [EvConnectorCreate (server_name sargs) sc c;
                     EvSubchannelCreate c sub;
                     EvConnectorUnref c]
    /\ (subchannel_retains sargs = true ->
        heap s' !! c
        = Some (Cell 1 (OConnector (server_name sargs) Add_handshakers sc))).
Proof.
  destruct s as [h n t]. unfold fresh_from. simpl. intros Hf Hlive.
  destruct (subchannel_retains sargs) eqn:Hret.
  - erewrite run_subchannel_retained by eassumption.
    eexists _, _, _. split; [reflexivity|]. simpl.
    split; [heap_simpl; reflexivity|]. split; [reflexivity|].
    intros _. heap_simpl. reflexivity.
  - erewrite run_subchannel_not_retained by eassumption.
    eexists _, n, _. split; [reflexivity|]. simpl.
    split; [heap_simpl; reflexivity|]. split; [reflexivity|].
    discriminate.
Qed.

(** C9: [client_channel_factory_create_subchannel] releases the transport
    connector it created exactly once, as its last call, whether the
    subchannel kept a reference or not.  Afterwards the connector is counted
    once, for the subchannel, when the subchannel kept it, and is gone
    otherwise; the factory is as it was and holds no reference to it. *)
Theorem create_subchannel_releases_connector_once f r sc sargs s :
  fresh_from s ->
  heap s !! f = Some (Cell r (OFactory sc)) ->
  exists sub s' evs,
    create_subchannel f sargs s = Done sub s'
    /\ trace s' = trace s ++ evs
    /\ connector_unref_count (next s) evs = 1
    /\ last evs = Some (EvConnectorUnref (next s))
    /\ In (EvConnectorCreate (server_name sargs) sc (next s)) evs
    /\ heap s' !! f = heap s !! f
    /\ (if subchannel_retains sargs
        then heap s' !! next s
             = Some (Cell 1 (OConnector (server_name sargs)
                                        Add_handshakers sc))
             /\ heap s' !! sub = Some (Cell 1 (OSubchannel (Some (next s))
                                                           sargs))
        else heap s' !! next s = None
             /\ heap s' !! sub = Some (Cell 1 (OSubchannel None sargs))).
Proof.
  destruct s as [h n t]. unfold fresh_from. simpl. intros Hf Hlive.
  pose proof (live_below_next f r sc h n Hlive Hf) as Hlt.
  destruct (subchannel_retains sargs) eqn:Hret.
  - erewrite run_subchannel_retained by eassumption.
    eexists _, _, _. split; [reflexivity|]. simpl.
    split; [reflexivity|].
    split; [unfold connector_unref_count; simpl;
            rewrite Nat.eqb_refl; reflexivity|].
    split; [reflexivity|]. split; [in_list|].
    split; [heap_simpl; reflexivity|].
    split; heap_simpl; reflexivity.
  - erewrite run_subchannel_not_retained by eassumption.
    eexists _, _, _. split; [reflexivity|]. simpl.
    split; [reflexivity|].
    split; [unfold connector_unref_count; simpl;
            rewrite Nat.eqb_refl; reflexivity|].
    split; [reflexivity|]. split; [in_list|].
    split; [heap_simpl; reflexivity|].
    split; heap_simpl; [apply Hf; lia | reflexivity].
Qed.

End Claims.

(** ** The claims on concrete runs *)

(** The whole call log of a successful run from the empty heap. *)
Example live_run_log :
  exists s',
    Example.create 1 "example.com:443" [] true Example.init_state
    = Done (Some 4) s'
    /\ next s' = 6
    /\ trace s'
       = [EvApiTrace "grpc_secure_channel_create";
          EvCreateSecurityConnector 1 "example.com:443" (Some (1, None));
          EvArgsCopyAndAdd [] [Arg Example.key_name (ArgPointer 1)] 2;
          EvSecurityConnectorRef 1 "grpc_secure_channel_create";
          EvChannelCreate "example.com:443"
                          [Arg Example.key_name (ArgPointer 1)] 4;
          EvResolverCreate "example.com:443"
                           [Arg Example.key_name (ArgPointer 1)] true;
          EvFinishInitialization 4 5 3;
          EvResolverUnref 5 "create_channel";
          EvSecurityConnectorUnref
            1 "secure_client_channel_factory_create_channel";
          EvArgsDestroy 2]
    /\ heap s' !! 1
       = Some (Cell 1 (OSecurityConnector 1 "example.com:443"))
    /\ heap s' !! 2 = None
    /\ heap s' !! 3 = Some (Cell 1 (OFactory 1)).
Proof. eexists. repeat split; vm_compute; reflexivity. Qed.

(** The whole call log of a run whose target has no resolver. *)
Example null_run_log :
  Example.create 1 "" [] true Example.init_state
  = Done None
      (State ∅ 5
         [EvApiTrace "grpc_secure_channel_create";
          EvCreateSecurityConnector 1 "" (Some (1, None));
          EvArgsCopyAndAdd [] [Arg Example.key_name (ArgPointer 1)] 2;
          EvSecurityConnectorRef 1 "grpc_secure_channel_create";
          EvChannelCreate "" [Arg Example.key_name (ArgPointer 1)] 4;
          EvResolverCreate "" [Arg Example.key_name (ArgPointer 1)] false;
          EvChannelInternalUnref 4 "client_channel_factory_create_channel";
          EvSecurityConnectorUnref
            1 "secure_client_channel_factory_create_channel";
          EvArgsDestroy 2;
          EvSecurityConnectorUnref 1 "client_channel_factory"]).
Proof. vm_compute. reflexivity. Qed.

Lemma init_state_fresh : fresh_from Example.init_state.
Proof. intros a _. apply lookup_empty. Qed.

Lemma factory_state_fresh : fresh_from Example.factory_state.
Proof.
  intros a Ha. simpl in *.
  rewrite !lookup_insert_ne by lia. apply lookup_empty.
Qed.

(** Args that already carry a connector entry: a lame channel at address
    1. *)
Lemma existing_connector_example :
  exists s',
    Example.create 1 "example.com:443"
      [Arg Example.key_name (ArgPointer 9)] true Example.init_state
    = Done (Some 1) s'
    /\ heap s' !! 1
       = Some (Cell 1 (OLameChannel "example.com:443" GRPC_STATUS_INTERNAL
                         "Security connector exists in channel args.")).
Proof.
  destruct (existing_connector_gives_lame_channel
              Example.key_name Example.policy Example.registry
              Example.retains 1 "example.com:443"
              [Arg Example.key_name (ArgPointer 9)] 9 Example.init_state)
    as (s' & evs & Hrun & Hheap & _).
  - reflexivity.
  - exists s'. split; [exact Hrun|]. rewrite Hheap. reflexivity.
Defined.

(** Rejected credentials: a lame channel at address 1. *)
Lemma connector_failure_example :
  exists s',
    Example.create 0 "example.com:443" [] true Example.init_state
    = Done (Some 1) s'
    /\ heap s' !! 1
       = Some (Cell 1 (OLameChannel "example.com:443" GRPC_STATUS_INTERNAL
                         "Failed to create security connector.")).
Proof.
  destruct (connector_failure_gives_lame_channel
              Example.key_name Example.policy Example.registry
              Example.retains 0 "example.com:443" [] Example.init_state)
    as [(s' & evs & Hrun & Hheap & _) _].
  - reflexivity.
  - reflexivity.
  - exists s'. split; [exact Hrun|]. rewrite Hheap. reflexivity.
Defined.

(** A target without resolver: NULL, and an empty heap again. *)
Lemma resolver_failure_example :
  exists s',
    Example.create 1 "" [Arg "grpc.max_message_length" (ArgInteger 4096)]
                   true Example.init_state
    = Done None s'
    /\ heap s' = ∅.
Proof.
  destruct (resolver_failure_releases_all_and_returns_null
              Example.key_name Example.policy Example.registry
              Example.retains 1 ""
              [Arg "grpc.max_message_length" (ArgInteger 4096)]
              Example.init_state init_state_fresh) as [Hrel _].
  destruct (Hrel None) as (s' & evs & ch & na & Hrun & Hheap & _).
  - reflexivity.
  - reflexivity.
  - reflexivity.
  - exists s'. split; [exact Hrun | exact Hheap].
Defined.

(** Derived args and caller args under the same key: the channel is created
    from the derived entry and the connector entry. *)
Lemma merged_args_example :
  exists r s' ch,
    Example.create 2 "example.com:443"
      [Arg "grpc.ssl_target_name_override" (ArgString "caller.example")]
      true Example.init_state
    = Done r s'
    /\ In (EvChannelCreate "example.com:443"
             [Arg "grpc.ssl_target_name_override"
                  (ArgString "example.com:443");
              Arg Example.key_name (ArgPointer 1)] ch) (trace s').
Proof.
  destruct (merged_args_are_source_then_connector_entry
              Example.key_name Example.policy Example.registry
              Example.retains 2 "example.com:443"
              [Arg "grpc.ssl_target_name_override"
                   (ArgString "caller.example")]
              (Some [Arg "grpc.ssl_target_name_override"
                         (ArgString "example.com:443")])
              Example.init_state init_state_fresh)
    as (r & s' & evs & na & ch & Hrun & Htrace & _ & Hin & _).
  - reflexivity.
  - reflexivity.
  - exists r, s', ch. split; [exact Hrun|]. rewrite Htrace. exact Hin.
Defined.

(** The scenario of a live channel: balanced counts on what is left. *)
Lemma balance_example :
  exists r left s',
    Example.create 1 "example.com:443" [] true Example.init_state = Done r s'
    /\ heap s' = install left ∅
    /\ balanced r left.
Proof.
  destruct (every_path_balances_references
              Example.key_name Example.policy Example.registry
              Example.retains 1 "example.com:443" []
              Example.init_state init_state_fresh)
    as [(r & left & s' & Hrun & Hheap & _ & _ & _ & Hbal & _) _].
  exists r, left, s'. split; [exact Hrun|]. split; [exact Hheap | exact Hbal].
Defined.

(** Valid credentials, "example.com:443" and empty args: a live channel
    whose configuration is the connector entry alone. *)
Lemma live_channel_example :
  exists ch res f s',
    Example.create 1 "example.com:443" [] true Example.init_state
    = Done (Some ch) s'
    /\ heap s' !! ch
       = Some (Cell 1 (OChannel "example.com:443"
                                [Arg Example.key_name (ArgPointer 1)]
                                (Some (res, f))))
    /\ heap s' !! res = Some (Cell 1 (OResolver "example.com:443"))
    /\ security_entries Example.key_name
                        [Arg Example.key_name (ArgPointer 1)] = 1.
Proof.
  destruct (valid_inputs_give_live_channel
              Example.key_name Example.policy Example.registry
              Example.retains 1 "example.com:443" [] None
              Example.init_state init_state_fresh)
    as (ch & res & f & s' & Hrun & _ & Hch & Hres & Hone & _).
  - reflexivity.
  - reflexivity.
  - reflexivity.
  - reflexivity.
  - exists ch, res, f, s'.
    split; [exact Hrun|]. split; [exact Hch|]. split; [exact Hres|].
    exact Hone.
Defined.

(** Derived args at address 2: destroyed once, gone at the end. *)
Lemma derived_args_example :
  exists r s',
    Example.create 2 "example.com:443" [] true Example.init_state = Done r s'
    /\ args_destroy_count 2 (trace s') = 1
    /\ heap s' !! 2 = None.
Proof.
  destruct (derived_args_destroyed_once_after_merge
              Example.key_name Example.policy Example.registry
              Example.retains 2 "example.com:443" []
              [Arg "grpc.ssl_target_name_override"
                   (ArgString "example.com:443")]
              Example.init_state init_state_fresh)
    as (r & s' & post & Hrun & Htrace & _ & Hcount & Hgone).
  - reflexivity.
  - reflexivity.
  - exists r, s'. split; [exact Hrun|].
    split; [apply Hcount; reflexivity | exact Hgone].
Defined.

(** A subchannel for "example.com" is made and keeps the connector. *)
Lemma create_subchannel_example :
  exists sub c s',
    client_channel_factory_create_subchannel
      Example.retains 2 (SubchannelArgs "example.com" [])
      Example.factory_state
    = Done sub s'
    /\ heap s' !! sub
       = Some (Cell 1 (OSubchannel (Some c) (SubchannelArgs "example.com" []))).
Proof.
  destruct (create_subchannel_always_returns_subchannel
              Example.retains 2 1 1 (SubchannelArgs "example.com" [])
              Example.factory_state factory_state_fresh)
    as (sub & c & s' & Hrun & Hsub & _).
  - reflexivity.
  - exists sub, c, s'. split; [exact Hrun | exact Hsub].
Defined.

(** A subchannel that does not keep the connector: the connector at
    address 3 is released once and is gone. *)
Lemma connector_release_example :
  exists sub s',
    client_channel_factory_create_subchannel
      Example.retains 2 (SubchannelArgs "" []) Example.factory_state
    = Done sub s'
    /\ connector_unref_count 3 (trace s') = 1
    /\ heap s' !! 3 = None.
Proof.
  destruct (create_subchannel_releases_connector_once
              Example.retains 2 1 1 (SubchannelArgs "" [])
              Example.factory_state factory_state_fresh)
    as (sub & s' & evs & Hrun & Htrace & Hcount & _ & _ & _ & Hgone & _).
  - reflexivity.
  - exists sub, s'. split; [exact Hrun|].
    split; [rewrite Htrace; exact Hcount | exact Hgone].
Defined.

(** C4, as stated, fails on the code: with caller
    args and derived args under the same key, the channel configuration is
    not the specified merge, and the caller's entry is not in it. *)
Lemma merge_ignores_caller_args_given_derived_args :
  exists ch s' cfg binding,
    Example.create 2 "example.com:443"
      [Arg "grpc.ssl_target_name_override" (ArgString "caller.example")]
      true Example.init_state
    = Done (Some ch) s'
    /\ heap s' !! ch
       = Some (Cell 1 (OChannel "example.com:443" cfg binding))
    /\ ~ In (Arg "grpc.ssl_target_name_override"
                 (ArgString "caller.example")) cfg
    /\ cfg <> merge_as_specified
                [Arg "grpc.ssl_target_name_override"
                     (ArgString "caller.example")]
                (Some [Arg "grpc.ssl_target_name_override"
                           (ArgString "example.com:443")])
                (grpc_security_connector_to_arg Example.key_name 1).
Proof.
  eexists _, _, _, _. split; [vm_compute; reflexivity|].
  split; [vm_compute; reflexivity|].
  split.
  - intros [H|[H|[]]]; discriminate.
  - vm_compute. discriminate.
Qed.

(** ** The factory's reference count *)

Section FactoryCount.

Variables (f sc : nat) (h : gmap nat cell) (n : nat) (t : list event).

Lemma factory_ref_step r o :
  h !! f = Some (Cell (S r) o) ->
  client_channel_factory_ref f (State h n t)
  = Done tt (State (<[f := Cell (S (S r)) o]> h) n t).
Proof.
  intros Hf. autounfold with code.
  repeat (progress (simpl; rewrite ?Hf)). reflexivity.
Qed.

Lemma factory_unref_step r :
  h !! f = Some (Cell (S (S r)) (OFactory sc)) ->
  client_channel_factory_unref f (State h n t)
  = Done tt (State (<[f := Cell (S r) (OFactory sc)]> h) n t).
Proof.
  intros Hf. autounfold with code.
  repeat (progress (simpl; rewrite ?Hf)). reflexivity.
Qed.

Lemma factory_unref_last k creds target :
  h !! f = Some (Cell 1 (OFactory sc)) ->
  h !! sc = Some (Cell (S k) (OSecurityConnector creds target)) ->
  client_channel_factory_unref f (State h n t)
  = Done tt
      (State (delete f
                (match k with
                 | O => delete sc h
                 | S _ => <[sc := Cell k (OSecurityConnector creds target)]> h
                 end))
             n
             (t ++ [EvSecurityConnectorUnref sc "client_channel_factory"])).
Proof.
  intros Hf Hsc.
  assert (f <> sc) as Hne by (intros ->; rewrite Hf in Hsc; discriminate).
  autounfold with code.
  repeat (progress (simpl; rewrite ?Hf; heap_simpl; rewrite ?Hsc)).
  destruct k as [|k]; repeat (progress (simpl; heap_simpl)).
  - f_equal. f_equal. apply map_eq. intros i.
    destruct (decide (i = f)) as [->|?]; [heap_simpl; reflexivity|].
    destruct (decide (i = sc)) as [->|?]; heap_simpl; reflexivity.
  - f_equal. f_equal. apply map_eq. intros i.
    destruct (decide (i = f)) as [->|?]; [heap_simpl; reflexivity|].
    destruct (decide (i = sc)) as [->|?]; heap_simpl; reflexivity.
Qed.

End FactoryCount.

Lemma times_ref f o k : forall r h n t,
  h !! f = Some (Cell (S r) o) ->
  times k (client_channel_factory_ref f) (State h n t)
  = Done tt (State (<[f := Cell (S (k + r)) o]> h) n t).
Proof.
  induction k as [|k IH]; intros r h n t Hf; simpl.
  - unfold ret. rewrite insert_id by exact Hf. reflexivity.
  - unfold bind at 1. rewrite (factory_ref_step f h n t r o Hf).
    rewrite (IH (S r)) by apply lookup_insert_eq.
    rewrite insert_insert_eq. do 4 f_equal. lia.
Qed.

Lemma times_unref f sc k : forall r h n t,
  h !! f = Some (Cell (S (k + r)) (OFactory sc)) ->
  times k (client_channel_factory_unref f) (State h n t)
  = Done tt (State (<[f := Cell (S r) (OFactory sc)]> h) n t).
Proof.
  induction k as [|k IH]; intros r h n t Hf; simpl.
  - unfold ret. rewrite insert_id by exact Hf. reflexivity.
  - unfold bind at 1. simpl in Hf.
    rewrite (factory_unref_step f sc h n t (k + r) Hf).
    rewrite (IH r) by apply lookup_insert_eq.
    rewrite insert_insert_eq. reflexivity.
Qed.

(** X1: on a live factory, [k] calls of [client_channel_factory_ref]
    followed by [k] calls of [client_channel_factory_unref] leave the state
    exactly as it was: the count is back, the factory is not freed and the
    security connector is not touched. *)
Theorem factory_ref_unref_round_trip f sc r k s :
  heap s !! f = Some (Cell (S r) (OFactory sc)) ->
  (times k (client_channel_factory_ref f) ;;
   times k (client_channel_factory_unref f)) s
  = Done tt s.
Proof.
  destruct s as [h n t]. simpl. intros Hf.
  unfold bind. rewrite (times_ref f _ k r h n t Hf).
  rewrite (times_unref f sc k r) by apply lookup_insert_eq.
  rewrite insert_insert_eq, insert_id by exact Hf. reflexivity.
Qed.

(** X2: [client_channel_factory_unref] on the last reference of a factory
    frees the factory and drops the one reference it holds on its security
    connector: the connector is destroyed when that was its last reference
    and loses one count otherwise.  Nothing else changes. *)
Theorem factory_last_unref_releases_connector f sc k creds target s :
  heap s !! f = Some (Cell 1 (OFactory sc)) ->
  heap s !! sc = Some (Cell (S k) (OSecurityConnector creds target)) ->
  exists s',
    client_channel_factory_unref f s = Done tt s'
    /\ heap s' !! f = None
    /\ heap s' !! sc
       = match k with
         | O => None
         | S _ => Some (Cell k (OSecurityConnector creds target))
         end
    /\ (forall a, a <> f -> a <> sc -> heap s' !! a = heap s !! a)
    /\ next s' = next s
    /\ trace s'
       = trace s ++ [EvSecurityConnectorUnref sc "client_channel_factory"].
Proof.
  destruct s as [h n t]. simpl. intros Hf Hsc.
  assert (f <> sc) as Hne by (intros ->; rewrite Hf in Hsc; discriminate).
  rewrite (factory_unref_last f sc h n t k creds target Hf Hsc).
  eexists. split; [reflexivity|]. simpl.
  split; [heap_simpl; reflexivity|].
  split; [destruct k; heap_simpl; reflexivity|].
  split; [|split; reflexivity].
  intros a Haf Hasc. destruct k; heap_simpl; reflexivity.
Qed.

(** X3: [client_channel_factory_unref] on a factory with more than one
    reference only takes one off the count: the factory stays, its security
    connector is not released, and no call is made into the library. *)
Theorem factory_unref_keeps_shared_factory f sc r s :
  heap s !! f = Some (Cell (S (S r)) (OFactory sc)) ->
  client_channel_factory_unref f s
  = Done tt (State (<[f := Cell (S r) (OFactory sc)]> (heap s))
                   (next s) (trace s)).
Proof. destruct s as [h n t]. simpl. apply factory_unref_step. Qed.

(** ** The factory: channel creation on its own *)

(** A live object lies below the next address of a well-formed state. *)
Lemma live_lt (h : gmap nat cell) (n x : nat) (c : cell) :
  (forall a, n <= a -> h !! a = None) -> h !! x = Some c -> x < n.
Proof.
  intros Hfresh Hx. destruct (decide (x < n)) as [|Hge]; [assumption|].
  rewrite Hfresh in Hx by lia. discriminate.
Qed.

Section ChannelPaths.

Variable resolver_registry : string -> grpc_channel_args -> bool.

Abbreviation create_channel :=
  (client_channel_factory_create_channel resolver_registry).

Variables (f a : nat) (target : string) (type : grpc_client_channel_type).
Variables (ra : nat) (l : grpc_channel_args).
Variables (h : gmap nat cell) (n : nat) (t : list event).

Hypothesis Hfresh : forall x, n <= x -> h !! x = None.
Hypothesis Hargs : h !! a = Some (Cell ra (OArgs l)).

Lemma run_create_channel_ok r sc :
  h !! f = Some (Cell (S r) (OFactory sc)) ->
  resolver_registry target l = true ->
  create_channel f target type a (State h n t)
  = Done (Some n)
      (State
         (<[n + 1 := Cell 1 (OResolver target)]>
            (<[n := Cell 1 (OChannel target l (Some (n + 1, f)))]>
               (<[f := Cell (S (S r)) (OFactory sc)]> h)))
         (n + 2)
         (t ++ [EvChannelCreate target l n;
                EvResolverCreate target l true;
                EvFinishInitialization n (n + 1) f;
                EvResolverUnref (n + 1) "create_channel"])).
Proof.
  intros Hf Hres. norm_addr.
  pose proof (live_lt h n a _ Hfresh Hargs) as Ha.
  pose proof (live_lt h n f _ Hfresh Hf) as Hfn.
  autounfold with code.
  repeat (progress (simpl; heap_simpl; rewrite ?Hargs, ?Hres, ?Hf)).
  f_equal. f_equal.
  - apply map_eq. intros i.
    destruct (decide (i = f)) as [->|?]; [heap_simpl; reflexivity|].
    destruct (decide (i = n)) as [->|?]; [heap_simpl; reflexivity|].
    destruct (decide (i = S n)) as [->|?]; heap_simpl; reflexivity.
  - rewrite <- ?app_assoc. reflexivity.
Qed.

Lemma run_create_channel_null :
  resolver_registry target l = false ->
  create_channel f target type a (State h n t)
  = Done None
      (State h (n + 1)
         (t ++ [EvChannelCreate target l n;
                EvResolverCreate target l false;
                EvChannelInternalUnref
                  n "client_channel_factory_create_channel"])).
Proof.
  intros Hres. norm_addr.
  pose proof (live_lt h n a _ Hfresh Hargs) as Ha.
  autounfold with code.
  repeat (progress (simpl; heap_simpl; rewrite ?Hargs, ?Hres)).
  state_eq Hfresh n 1.
Qed.

End ChannelPaths.

Section ChannelCreation.

Variable resolver_registry : string -> grpc_channel_args -> bool.

(** X4: on a live factory and live args whose target resolves,
    [client_channel_factory_create_channel] returns a new channel built from
    the entries of the args and bound to a new resolver and to the factory.
    The factory's count goes up by one, for the channel; the resolver ends
    with count 1, the channel's, the creator's own reference being dropped;
    the args are left to the caller; the channel type is not looked at. *)
Theorem create_channel_binds_resolver_and_factory
    f a target type ra l r sc s :
  fresh_from s ->
  heap s !! a = Some (Cell ra (OArgs l)) ->
  heap s !! f = Some (Cell (S r) (OFactory sc)) ->
  resolver_registry target l = true ->
  exists s',
    client_channel_factory_create_channel resolver_registry f target type a s
    = Done (Some (next s)) s'
    /\ heap s' !! next s
       = Some (Cell 1 (OChannel target l (Some (next s + 1, f))))
    /\ heap s' !! (next s + 1) = Some (Cell 1 (OResolver target))
    /\ heap s' !! f = Some (Cell (S (S r)) (OFactory sc))
    /\ (forall x, x < next s -> x <> f -> heap s' !! x = heap s !! x)
    /\ fresh_from s'.
Proof.
  destruct s as [h n t]. unfold fresh_from. simpl. intros Hfr Hargs Hf Hres.
  pose proof (live_lt h n f _ Hfr Hf) as Hfn.
  erewrite run_create_channel_ok by eassumption.
  eexists. split; [reflexivity|]. simpl.
  split; [heap_simpl; reflexivity|].
  split; [heap_simpl; reflexivity|].
  split; [heap_simpl; reflexivity|].
  split; [intros x Hx Hxf; heap_simpl; reflexivity|].
  intros x Hx. heap_simpl. apply Hfr. lia.
Qed.

(** X5: when no resolver can be made for the target,
    [client_channel_factory_create_channel] returns NULL and leaves the heap
    as it found it: the channel it had built is released, the args stay with
    the caller, and the factory is never read or counted - it need not even
    be live. *)
Theorem create_channel_without_resolver_leaves_heap
    f a target type ra l s :
  fresh_from s ->
  heap s !! a = Some (Cell ra (OArgs l)) ->
  resolver_registry target l = false ->
  exists s',
    client_channel_factory_create_channel resolver_registry f target type a s
    = Done None s'
    /\ heap s' = heap s
    /\ trace s'
       = trace s ++ [EvChannelCreate target l (next s);
                     EvResolverCreate target l false;
                     EvChannelInternalUnref
                       (next s) "client_channel_factory_create_channel"].
Proof.
  destruct s as [h n t]. unfold fresh_from. simpl. intros Hfr Hargs Hres.
  erewrite run_create_channel_null by eassumption.
  eexists. split; [reflexivity|]. simpl. split; reflexivity.
Qed.

End ChannelCreation.

(** ** The factory: subchannels, one after the other *)

Section SubchannelSteps.

Variable subchannel_retains : grpc_subchannel_args -> bool.

(** One call of [client_channel_factory_create_subchannel], by what it
    returns, what it logs, and what it leaves of the heap. *)
Lemma subchannel_step f r sc sargs h n t :
  (forall x, n <= x -> h !! x = None) ->
  h !! f = Some (Cell r (OFactory sc)) ->
  exists h',
    client_channel_factory_create_subchannel subchannel_retains f sargs
                                             (State h n t)
    = Done (n + 1)
        (State h' (n + 2)
           (t ++ [EvConnectorCreate (server_name sargs) sc n;
                  EvSubchannelCreate n (n + 1);
                  EvConnectorUnref n]))
    /\ (forall x, x < n -> h' !! x = h !! x)
    /\ (forall x, n + 2 <= x -> h' !! x = None)
    /\ h' !! (n + 1)
       = Some (Cell 1 (OSubchannel
                         (if subchannel_retains sargs then Some n else None)
                         sargs))
    /\ h' !! n
       = (if subchannel_retains sargs
          then Some (Cell 1 (OConnector (server_name sargs)
                                        Add_handshakers sc))
          else None).
Proof.
  intros Hfr Hlive. destruct (subchannel_retains sargs) eqn:Hret.
  - erewrite run_subchannel_retained by eassumption.
    eexists. split; [reflexivity|].
    split; [intros x Hx; heap_simpl; reflexivity|].
    split; [intros x Hx; heap_simpl; apply Hfr; lia|].
    split; heap_simpl; reflexivity.
  - erewrite run_subchannel_not_retained by eassumption.
    eexists. split; [reflexivity|].
    split; [intros x Hx; heap_simpl; reflexivity|].
    split; [intros x Hx; heap_simpl; apply Hfr; lia|].
    split; heap_simpl; [reflexivity | apply Hfr; lia].
Qed.

(** X6: [client_channel_factory_create_subchannel] changes no object that
    was there before the call: the factory and its security connector keep
    their counts, although the new connector points at the security
    connector.  It keeps the state well-formed and returns a subchannel at a
    fresh address. *)
Theorem create_subchannel_touches_no_existing_object f r sc csc sargs s :
  fresh_from s ->
  heap s !! f = Some (Cell r (OFactory sc)) ->
  heap s !! sc = Some csc ->
  exists sub s',
    client_channel_factory_create_subchannel subchannel_retains f sargs s
    = Done sub s'
    /\ (forall x, x < next s -> heap s' !! x = heap s !! x)
    /\ heap s' !! f = Some (Cell r (OFactory sc))
    /\ heap s' !! sc = Some csc
    /\ fresh_from s'
    /\ next s <= sub < next s'
    /\ is_Some (heap s' !! sub).
Proof.
  destruct s as [h n t]. unfold fresh_from. simpl. intros Hfr Hlive Hsc.
  destruct (subchannel_step f r sc sargs h n t Hfr Hlive)
    as (h' & Hrun & Hframe & Hfresh' & Hsub & _).
  rewrite Hrun. eexists _, _. split; [reflexivity|]. simpl.
  pose proof (live_lt h n f _ Hfr Hlive) as Hfn.
  pose proof (live_lt h n sc _ Hfr Hsc) as Hscn.
  split; [exact Hframe|].
  split; [rewrite Hframe by lia; exact Hlive|].
  split; [rewrite Hframe by lia; exact Hsc|].
  split; [intros x Hx; apply Hfresh'; lia|].
  split; [lia|]. rewrite Hsub. eauto.
Qed.

(** X7: two calls of [client_channel_factory_create_subchannel] on the same
    factory, one after the other, give two different subchannels, each from
    a transport connector of its own built on the factory's security
    connector; the second call leaves the first subchannel as it was. *)
Theorem create_subchannel_twice_gives_two_subchannels
    f r sc sargs1 sargs2 s :
  fresh_from s ->
  heap s !! f = Some (Cell r (OFactory sc)) ->
  exists sub1 s1 sub2 s2,
    client_channel_factory_create_subchannel subchannel_retains f sargs1 s
    = Done sub1 s1
    /\ client_channel_factory_create_subchannel subchannel_retains f sargs2 s1
       = Done sub2 s2
    /\ sub1 <> sub2
    /\ heap s2 !! sub1 = heap s1 !! sub1
    /\ is_Some (heap s2 !! sub1)
    /\ is_Some (heap s2 !! sub2)
    /\ trace s2
       = trace s ++ [EvConnectorCreate (server_name sargs1) sc (next s);
                     EvSubchannelCreate (next s) sub1;
                     EvConnectorUnref (next s);
                     EvConnectorCreate (server_name sargs2) sc (next s1);
                     EvSubchannelCreate (next s1) sub2;
                     EvConnectorUnref (next s1)]
    /\ next s < next s1.
Proof.
  destruct s as [h n t]. unfold fresh_from. simpl. intros Hfr Hlive.
  pose proof (live_lt h n f _ Hfr Hlive) as Hfn.
  destruct (subchannel_step f r sc sargs1 h n t Hfr Hlive)
    as (h1 & Hrun1 & Hframe1 & Hfresh1 & Hsub1 & _).
  assert (Hlive1 : h1 !! f = Some (Cell r (OFactory sc)))
    by (rewrite Hframe1 by lia; exact Hlive).
  destruct (subchannel_step
              f r sc sargs2 h1 (n + 2)
              (t ++ [EvConnectorCreate (server_name sargs1) sc n;
                     EvSubchannelCreate n (n + 1);
                     EvConnectorUnref n])
              Hfresh1 Hlive1)
    as (h2 & Hrun2 & Hframe2 & Hfresh2 & Hsub2 & _).
  eexists _, _, _, _. split; [exact Hrun1|]. split; [exact Hrun2|]. simpl.
  split; [lia|].
  split; [apply Hframe2; lia|].
  split; [rewrite Hframe2 by lia; rewrite Hsub1; eauto|].
  split; [rewrite Hsub2; eauto|].
  split; [rewrite <- app_assoc; reflexivity | lia].
Qed.

End SubchannelSteps.

(** ** The entry point, composed *)

Section Args2.

Variable K : string.

Lemma find_app l1 l2 :
  grpc_find_security_connector_in_args K (l1 ++ l2)
  = match grpc_find_security_connector_in_args K l1 with
    | Some p => Some p
    | None => grpc_find_security_connector_in_args K l2
    end.
Proof.
  induction l1 as [|a l1 IH]; simpl; [reflexivity|].
  destruct (grpc_security_connector_from_arg K a); [reflexivity | exact IH].
Qed.

Lemma find_merged_args args derived sc :
  exists p,
    grpc_find_security_connector_in_args K (merged_args K args derived sc)
    = Some p.
Proof.
  unfold merged_args. rewrite find_app.
  destruct (grpc_find_security_connector_in_args K _); [eauto|].
  simpl. rewrite from_arg_to_arg. eauto.
Qed.

End Args2.

Section Composition.

Variable K : string.
Variable security_policy :
  nat -> string -> grpc_channel_args -> option (option grpc_channel_args).
Variable resolver_registry : string -> grpc_channel_args -> bool.
Variable subchannel_retains : grpc_subchannel_args -> bool.

Abbreviation secure_channel_create :=
  (grpc_secure_channel_create K security_policy resolver_registry
                              subchannel_retains).

(** One call of [grpc_secure_channel_create] from a well-formed state: it
    returns, changes nothing below the next address, keeps the state
    well-formed, and a handle it returns is a live object at a new
    address. *)
Lemma create_frame creds target args h n t :
  (forall x, n <= x -> h !! x = None) ->
  exists r s',
    secure_channel_create creds target args true (State h n t) = Done r s'
    /\ (forall x, x < n -> heap s' !! x = h !! x)
    /\ fresh_from s'
    /\ n < next s'
    /\ (forall ch, r = Some ch -> n <= ch < next s' /\ is_Some (heap s' !! ch)).
Proof.
  intros Hf. unfold fresh_from.
  case_paths K security_policy resolver_registry args creds target n;
    (eexists _, _; split; [reflexivity|]; simpl;
     split; [intros x Hx; heap_simpl; reflexivity|];
     split; [intros x Hx; heap_simpl; apply Hf; lia|];
     split; [lia|];
     intros ch [= <-]; (split; [lia | heap_simpl; eauto])).
Qed.

(** X9: two calls of [grpc_secure_channel_create], one after the other and
    whatever their arguments, do not share or disturb anything: the second
    call changes no object the first left, among them the first channel, its
    factory and its security connector, and when both return a channel the
    two handles differ and both channels are live. *)
Theorem two_creations_are_independent
    creds1 target1 args1 creds2 target2 args2 s :
  fresh_from s ->
  exists r1 s1 r2 s2,
    secure_channel_create creds1 target1 args1 true s = Done r1 s1
    /\ secure_channel_create creds2 target2 args2 true s1 = Done r2 s2
    /\ (forall x, x < next s1 -> heap s2 !! x = heap s1 !! x)
    /\ (forall x, x < next s -> heap s2 !! x = heap s !! x)
    /\ fresh_from s2
    /\ forall ch1 ch2,
        r1 = Some ch1 -> r2 = Some ch2 ->
        ch1 < ch2
        /\ heap s2 !! ch1 = heap s1 !! ch1
        /\ is_Some (heap s2 !! ch1)
        /\ is_Some (heap s2 !! ch2).
Proof.
  destruct s as [h n t]. unfold fresh_from at 1. simpl. intros Hf.
  destruct (create_frame creds1 target1 args1 h n t Hf)
    as (r1 & [h1 n1 t1] & Hrun1 & Hframe1 & Hfresh1 & Hn1 & Hch1).
  unfold fresh_from in Hfresh1. simpl in *.
  destruct (create_frame creds2 target2 args2 h1 n1 t1 Hfresh1)
    as (r2 & s2 & Hrun2 & Hframe2 & Hfresh2 & Hn2 & Hch2).
  exists r1, (State h1 n1 t1), r2, s2.
  split; [exact Hrun1|]. split; [exact Hrun2|]. simpl.
  split; [exact Hframe2|].
  split; [intros x Hx; rewrite Hframe2 by lia; apply Hframe1; exact Hx|].
  split; [exact Hfresh2|].
  intros ch1 ch2 E1 E2.
  destruct (Hch1 ch1 E1) as [Hb1 Hl1]. destruct (Hch2 ch2 E2) as [Hb2 Hl2].
  split; [lia|]. split; [apply Hframe2; lia|].
  split; [rewrite Hframe2 by lia; exact Hl1 | exact Hl2].
Qed.

(** X10: the factory that a successful [grpc_secure_channel_create] leaves
    behind is held by the channel alone, and is the last holder of the
    security connector: when the channel gives the factory up, through
    [grpc_client_channel_factory_unref], the factory is freed and the
    security connector is destroyed with it, the channel and the resolver
    staying as they are. *)
Theorem releasing_factory_after_creation_destroys_connector
    creds target args derived s :
  fresh_from s ->
  grpc_find_security_connector_in_args K args = None ->
  security_policy creds target args = Some derived ->
  resolver_registry target (merged_args K args derived (next s)) = true ->
  exists ch res f cfg s' s'',
    secure_channel_create creds target args true s = Done (Some ch) s'
    /\ heap s' !! ch = Some (Cell 1 (OChannel target cfg (Some (res, f))))
    /\ heap s' !! f = Some (Cell 1 (OFactory (next s)))
    /\ heap s' !! next s = Some (Cell 1 (OSecurityConnector creds target))
    /\ grpc_client_channel_factory_unref
         resolver_registry subchannel_retains f s'
       = Done tt s''
    /\ heap s'' !! f = None
    /\ heap s'' !! next s = None
    /\ heap s'' !! ch = heap s' !! ch
    /\ heap s'' !! res = heap s' !! res
    /\ (forall x, x < next s -> heap s'' !! x = heap s !! x).
Proof.
  destruct s as [h n t]. unfold fresh_from. simpl. intros Hf Hfind Hpol Hres.
  destruct derived as [d|].
  - erewrite run_success_derived by eassumption.
    eexists _, _, _, _, _, _. split; [reflexivity|]. simpl.
    split; [heap_simpl; reflexivity|].
    split; [heap_simpl; reflexivity|].
    split; [heap_simpl; reflexivity|].
    split.
    { unfold grpc_client_channel_factory_unref. simpl.
      erewrite (factory_unref_last (n + 3) n _ _ _ 0 creds target)
        by (heap_simpl; reflexivity).
      reflexivity. }
    simpl. split; [heap_simpl; reflexivity|].
    split; [heap_simpl; reflexivity|].
    split; [heap_simpl; reflexivity|].
    split; [heap_simpl; reflexivity|].
    intros x Hx. heap_simpl. reflexivity.
  - erewrite run_success_plain by eassumption.
    eexists _, _, _, _, _, _. split; [reflexivity|]. simpl.
    split; [heap_simpl; reflexivity|].
    split; [heap_simpl; reflexivity|].
    split; [heap_simpl; reflexivity|].
    split.
    { unfold grpc_client_channel_factory_unref. simpl.
      erewrite (factory_unref_last (n + 2) n _ _ _ 0 creds target)
        by (heap_simpl; reflexivity).
      reflexivity. }
    simpl. split; [heap_simpl; reflexivity|].
    split; [heap_simpl; reflexivity|].
    split; [heap_simpl; reflexivity|].
    split; [heap_simpl; reflexivity|].
    intros x Hx. heap_simpl. reflexivity.
Qed.

(** X11: the configuration of a channel made by
    [grpc_secure_channel_create] cannot be used to make another one: given
    as the channel args of a later call, with any credentials and target and
    from any state, it is stopped by the guard and the call returns the lame
    channel "Security connector exists in channel args." without creating a
    connector. *)
Theorem channel_configuration_is_refused_as_args
    creds target args derived s :
  fresh_from s ->
  grpc_find_security_connector_in_args K args = None ->
  security_policy creds target args = Some derived ->
  resolver_registry target (merged_args K args derived (next s)) = true ->
  exists ch cfg binding s',
    secure_channel_create creds target args true s = Done (Some ch) s'
    /\ heap s' !! ch = Some (Cell 1 (OChannel target cfg binding))
    /\ forall creds' target' s2,
        secure_channel_create creds' target' cfg true s2
        = Done (Some (next s2))
            (State (<[next s2 := Cell 1 (OLameChannel
                       target' GRPC_STATUS_INTERNAL
                       "Security connector exists in channel args.")]>
                      (heap s2))
                   (next s2 + 1)
                   (trace s2
                      ++ [EvApiTrace "grpc_secure_channel_create";
                          EvLog "Cannot set security context in channel args.";
                          EvLameChannelCreate
                            target' GRPC_STATUS_INTERNAL
                            "Security connector exists in channel args."])).
Proof.
  destruct s as [h n t]. unfold fresh_from. simpl. intros Hf Hfind Hpol Hres.
  destruct (find_merged_args K args derived n) as [p Hp].
  destruct derived as [d|].
  - erewrite run_success_derived by eassumption.
    eexists _, _, _, _. split; [reflexivity|]. simpl.
    split; [heap_simpl; reflexivity|].
    intros creds' target' [h2 n2 t2]. simpl.
    apply (run_guard K security_policy resolver_registry subchannel_retains
                     creds' target' _ h2 n2 t2 p Hp).
  - erewrite run_success_plain by eassumption.
    eexists _, _, _, _. split; [reflexivity|]. simpl.
    split; [heap_simpl; reflexivity|].
    intros creds' target' [h2 n2 t2]. simpl.
    apply (run_guard K security_policy resolver_registry subchannel_retains
                     creds' target' _ h2 n2 t2 p Hp).
Qed.

End Composition.

(** ** The further properties on concrete runs *)

Lemma channel_ready_state_fresh : fresh_from Fixture.channel_ready_state.
Proof.
  intros a Ha. simpl in *.
  rewrite !lookup_insert_ne by lia. apply lookup_empty.
Qed.

(** Three references taken and given back on the factory at 2. *)
Lemma factory_round_trip_example :
  (times 3 (client_channel_factory_ref 2) ;;
   times 3 (client_channel_factory_unref 2)) Example.factory_state
  = Done tt Example.factory_state.
Proof.
  apply (factory_ref_unref_round_trip 2 1 0 3 Example.factory_state).
  reflexivity.
Defined.

(** The only reference of the factory at 2 is dropped: the factory and the
    connector at 1 are gone. *)
Lemma factory_last_unref_example :
  exists s',
    client_channel_factory_unref 2 Example.factory_state = Done tt s'
    /\ heap s' !! 2 = None
    /\ heap s' !! 1 = None.
Proof.
  destruct (factory_last_unref_releases_connector
              2 1 0 1 "example.com:443" Example.factory_state)
    as (s' & Hrun & Hf & Hsc & _).
  - reflexivity.
  - reflexivity.
  - exists s'. split; [exact Hrun|]. split; [exact Hf | exact Hsc].
Defined.

(** One of two references of the factory at 2 is dropped: count 1. *)
Lemma factory_shared_unref_example :
  exists s',
    client_channel_factory_unref 2 Fixture.shared_factory_state = Done tt s'
    /\ heap s' !! 2 = Some (Cell 1 (OFactory 1))
    /\ heap s' !! 1 = Some (Cell 1 (OSecurityConnector 1 "example.com:443")).
Proof.
  eexists. split.
  - apply (factory_unref_keeps_shared_factory
             2 1 0 Fixture.shared_factory_state).
    reflexivity.
  - split; reflexivity.
Defined.

(** A channel for "example.com:443" on the factory at 3: the factory is
    then counted twice. *)
Lemma create_channel_example :
  exists s',
    client_channel_factory_create_channel
      Example.registry 3 "example.com:443" GRPC_CLIENT_CHANNEL_TYPE_REGULAR 2
      Fixture.channel_ready_state
    = Done (Some 4) s'
    /\ heap s' !! 3 = Some (Cell 2 (OFactory 1))
    /\ heap s' !! 5 = Some (Cell 1 (OResolver "example.com:443")).
Proof.
  destruct (create_channel_binds_resolver_and_factory
              Example.registry 3 2 "example.com:443"
              GRPC_CLIENT_CHANNEL_TYPE_REGULAR 1
              [Arg Example.key_name (ArgPointer 1)] 0 1
              Fixture.channel_ready_state channel_ready_state_fresh)
    as (s' & Hrun & _ & Hres & Hf & _).
  - reflexivity.
  - reflexivity.
  - reflexivity.
  - exists s'. split; [exact Hrun|]. split; [exact Hf | exact Hres].
Defined.

(** No resolver for the empty target: NULL and the same heap. *)
Lemma create_channel_null_example :
  exists s',
    client_channel_factory_create_channel
      Example.registry 3 "" GRPC_CLIENT_CHANNEL_TYPE_LOAD_BALANCING 2
      Fixture.channel_ready_state
    = Done None s'
    /\ heap s' = heap Fixture.channel_ready_state.
Proof.
  destruct (create_channel_without_resolver_leaves_heap
              Example.registry 3 2 "" GRPC_CLIENT_CHANNEL_TYPE_LOAD_BALANCING
              1 [Arg Example.key_name (ArgPointer 1)]
              Fixture.channel_ready_state channel_ready_state_fresh)
    as (s' & Hrun & Hheap & _).
  - reflexivity.
  - reflexivity.
  - exists s'. split; [exact Hrun | exact Hheap].
Defined.

(** A subchannel made on the factory at 2: factory and connector as they
    were. *)
Lemma subchannel_frame_example :
  exists sub s',
    client_channel_factory_create_subchannel
      Example.retains 2 (SubchannelArgs "example.com" [])
      Example.factory_state
    = Done sub s'
    /\ heap s' !! 2 = Some (Cell 1 (OFactory 1))
    /\ heap s' !! 1 = Some (Cell 1 (OSecurityConnector 1 "example.com:443")).
Proof.
  destruct (create_subchannel_touches_no_existing_object
              Example.retains 2 1 1
              (Cell 1 (OSecurityConnector 1 "example.com:443"))
              (SubchannelArgs "example.com" [])
              Example.factory_state factory_state_fresh)
    as (sub & s' & Hrun & _ & Hf & Hsc & _).
  - reflexivity.
  - reflexivity.
  - exists sub, s'. split; [exact Hrun|]. split; [exact Hf | exact Hsc].
Defined.

(** Two subchannels on the factory at 2, one keeping its connector and one
    not. *)
Lemma two_subchannels_example :
  exists sub1 s1 sub2 s2,
    client_channel_factory_create_subchannel
      Example.retains 2 (SubchannelArgs "example.com" [])
      Example.factory_state
    = Done sub1 s1
    /\ client_channel_factory_create_subchannel
         Example.retains 2 (SubchannelArgs "" []) s1
       = Done sub2 s2
    /\ sub1 <> sub2.
Proof.
  destruct (create_subchannel_twice_gives_two_subchannels
              Example.retains 2 1 1
              (SubchannelArgs "example.com" []) (SubchannelArgs "" [])
              Example.factory_state factory_state_fresh)
    as (sub1 & s1 & sub2 & s2 & Hrun1 & Hrun2 & Hne & _).
  - reflexivity.
  - exists sub1, s1, sub2, s2.
    split; [exact Hrun1|]. split; [exact Hrun2 | exact Hne].
Defined.

(** Two channels from the empty heap, with different handles. *)
Lemma two_creations_example :
  exists r1 s1 r2 s2,
    Example.create 1 "example.com:443" [] true Example.init_state
    = Done r1 s1
    /\ Example.create 2 "example.org:443" [] true s1 = Done r2 s2
    /\ forall x, x < next s1 -> heap s2 !! x = heap s1 !! x.
Proof.
  destruct (two_creations_are_independent
              Example.key_name Example.policy Example.registry
              Example.retains 1 "example.com:443" [] 2 "example.org:443" []
              Example.init_state init_state_fresh)
    as (r1 & s1 & r2 & s2 & Hrun1 & Hrun2 & Hframe & _).
  exists r1, s1, r2, s2.
  split; [exact Hrun1|]. split; [exact Hrun2 | exact Hframe].
Defined.

(** After the channel gives up the factory, factory and connector are
    gone. *)
Lemma release_after_creation_example :
  exists ch f s' s'',
    Example.create 1 "example.com:443" [] true Example.init_state
    = Done (Some ch) s'
    /\ grpc_client_channel_factory_unref
         Example.registry Example.retains f s'
       = Done tt s''
    /\ heap s'' !! f = None
    /\ heap s'' !! 1 = None.
Proof.
  destruct (releasing_factory_after_creation_destroys_connector
              Example.key_name Example.policy Example.registry
              Example.retains 1 "example.com:443" [] None
              Example.init_state init_state_fresh)
    as (ch & res & f & cfg & s' & s'' & Hrun & _ & _ & _ & Hun & Hf & Hsc & _).
  - reflexivity.
  - reflexivity.
  - reflexivity.
  - exists ch, f, s', s''.
    split; [exact Hrun|]. split; [exact Hun|]. split; [exact Hf | exact Hsc].
Defined.

(** The configuration of a new channel, given back as args: a lame
    channel. *)
Lemma configuration_refused_example :
  exists ch cfg binding s',
    Example.create 1 "example.com:443" [] true Example.init_state
    = Done (Some ch) s'
    /\ heap s' !! ch
       = Some (Cell 1 (OChannel "example.com:443" cfg binding))
    /\ exists s2,
        Example.create 0 "example.org:443" cfg true Example.init_state
        = Done (Some 1) s2.
Proof.
  destruct (channel_configuration_is_refused_as_args
              Example.key_name Example.policy Example.registry
              Example.retains 1 "example.com:443" [] None
              Example.init_state init_state_fresh)
    as (ch & cfg & b & s' & Hrun & Hch & Hrefused).
  - reflexivity.
  - reflexivity.
  - reflexivity.
  - exists ch, cfg, b, s'. split; [exact Hrun|]. split; [exact Hch|].
    eexists. apply (Hrefused 0 "example.org:443" Example.init_state).
Defined.

(** C6, as stated, fails on the code: with credentials that yield a
    connector, a target that resolves and empty caller args, derived args
    that carry a security-state entry are copied as they are, and the live
    channel has two security-state entries, not one. *)
Lemma derived_security_entry_is_copied_into_channel :
  exists ch s' cfg binding,
    grpc_secure_channel_create
      Example.key_name Fixture.stateful_policy Example.registry
      Example.retains 1 "example.com:443" [] true Example.init_state
    = Done (Some ch) s'
    /\ grpc_find_security_connector_in_args Example.key_name [] = None
    /\ heap s' !! ch
       = Some (Cell 1 (OChannel "example.com:443" cfg binding))
    /\ cfg = [Arg Example.key_name (ArgPointer 9);
              Arg Example.key_name (ArgPointer 1)]
    /\ security_entries Example.key_name cfg = 2
    /\ security_entries Example.key_name cfg <> 1.
Proof.
  eexists _, _, _, _. split; [vm_compute; reflexivity|].
  split; [reflexivity|].
  split; [vm_compute; reflexivity|].
  split; [reflexivity|].
  split; [vm_compute; reflexivity|].
  vm_compute. discriminate.
Qed.
